(** * File operations of Auto-GPT: operation log, duplicate gate, commands

    A shallow embedding of [autogpt/commands/file_operations.py].

    Conventions of the embedding.
    - A Python [str] is a [string]; a character is a code point below 256.
    - The file system is a finite map from path strings to file contents.
      Paths are compared as strings, as the operation log does; two
      spellings of one file are two keys.
    - A Python exception is a value of [exn]; a call that may raise returns a
      [result].  A generator returns the entries it yielded together with the
      way it ended.
    - What the operating system and [hashlib] decide is collected in the
      class [Platform].  Whether a file can be written depends on its path
      only; a file that exists can be read.  A call of [os.rename],
      [os.remove] or [os.stat] fails with [FileNotFoundError] on a path
      that is not in the file system, unless the operating system refuses
      the path itself first (a path below a regular file, a name that is
      too long, ...), which again depends on the paths only.  Text files are
      written as on POSIX (a "\n" is stored as it is) and read with
      universal newlines. *)

From Stdlib Require Import Ascii String ZArith Lia.
From stdpp Require Import gmap strings fin_maps.

Local Open Scope stdpp_scope.

(** ** Exceptions and results *)

(** [OSError] stands for [OSError] and its subclasses other than
    [FileNotFoundError] ([NotADirectoryError], [PermissionError], ...): no
    handler of the module tells them apart. *)
Inductive exn : Type :=
  | ValueError (msg : string)
  | KeyError (key : string)
  | NameError (name : string)
  | FileNotFoundError (msg : string)
  | OSError (msg : string).

Inductive result (A : Type) : Type :=
  | Ok (a : A)
  | Raise (e : exn).
Arguments Ok {A} a.
Arguments Raise {A} e.

(** Sequencing: the first exception raised ends the computation.  The
    notation [x ← r; k] is stdpp's. *)
Global Instance result_ret : MRet result := fun A a => Ok a.
Global Instance result_bind : MBind result := fun A B k r =>
  match r with
  | Ok a => k a
  | Raise e => Raise e
  end.

(** ** The methods of [str] the module uses *)

Module PyStr.

(** [str.isspace] on one character, for code points below 256. *)
Definition is_space (c : ascii) : bool :=
  let n := N_of_ascii c in
  ((9 <=? n) && (n <=? 13) || (28 <=? n) && (n <=? 32)
   || (n =? 133) || (n =? 160))%N.

Definition is_newline (c : ascii) : bool :=
  match c with
  | "010"%char | "013"%char => true
  | _ => false
  end.

Fixpoint all_chars (f : ascii -> bool) (s : string) : bool :=
  match s with
  | "" => true
  | String c s' => f c && all_chars f s'
  end.

(** The text [m] does not hold the character [c]. *)
Definition lacks (c : ascii) (m : string) : bool :=
  all_chars (fun x => negb (Ascii.eqb x c)) m.

Fixpoint last_char (s : string) : option ascii :=
  match s with
  | "" => None
  | String c s' =>
      match s' with
      | "" => Some c
      | String _ _ => last_char s'
      end
  end.

(** [s.startswith(p)] *)
Fixpoint startswith (p s : string) : bool :=
  match p, s with
  | "", _ => true
  | String _ _, "" => false
  | String a p', String b s' => Ascii.eqb a b && startswith p' s'
  end.

(** [s[n:]] for [n >= 0] *)
Fixpoint drop (n : nat) (s : string) : string :=
  match n, s with
  | O, _ => s
  | S _, "" => ""
  | S n', String _ s' => drop n' s'
  end.

(** [s[:n]] for [n >= 0] *)
Fixpoint take (n : nat) (s : string) : string :=
  match n, s with
  | O, _ => ""
  | S _, "" => ""
  | S n', String c s' => String c (take n' s')
  end.

(** [sub in s] *)
Fixpoint contains (sub s : string) : bool :=
  startswith sub s ||
  match s with
  | "" => false
  | String _ s' => contains sub s'
  end.

(** [s.lstrip()], [s.rstrip()], [s.strip()] *)
Fixpoint lstrip (s : string) : string :=
  match s with
  | "" => ""
  | String c s' => if is_space c then lstrip s' else s
  end.

Fixpoint rstrip (s : string) : string :=
  match s with
  | "" => ""
  | String c s' =>
      match rstrip s' with
      | "" => if is_space c then "" else String c ""
      | r => String c r
      end
  end.

Definition strip (s : string) : string := rstrip (lstrip s).

(** [s.replace(old, "")] for a non-empty [old]: occurrences are removed
    from left to right and do not overlap.  [skip] counts the characters
    of the occurrence being removed that are still ahead. *)
Fixpoint remove_from (old : string) (skip : nat) (s : string) : string :=
  match s with
  | "" => ""
  | String c s' =>
      match skip with
      | S k => remove_from old k s'
      | O =>
          if startswith old s
          then remove_from old (String.length old - 1) s'
          else String c (remove_from old 0 s')
      end
  end.

Definition remove (old s : string) : string := remove_from old 0 s.

(** The leftmost occurrence of a non-empty [sep]: what is before it and
    what is after it. *)
Fixpoint partition (sep s : string) : option (string * string) :=
  match s with
  | "" => None
  | String c s' =>
      if startswith sep s then Some ("", drop (String.length sep) s)
      else match partition sep s' with
           | Some (a, b) => Some (String c a, b)
           | None => None
           end
  end.

(** The rightmost occurrence of a non-empty [sep]. *)
Fixpoint rpartition (sep s : string) : option (string * string) :=
  match s with
  | "" => None
  | String c s' =>
      match rpartition sep s' with
      | Some (a, b) => Some (String c a, b)
      | None =>
          if startswith sep s then Some ("", drop (String.length sep) s)
          else None
      end
  end.

(** [s.split(sep, maxsplit=1)] and [s.rsplit(sep, maxsplit=1)] *)
Definition split1 (sep s : string) : list string :=
  match partition sep s with
  | Some (a, b) => [a; b]
  | None => [s]
  end.

Definition rsplit1 (sep s : string) : list string :=
  match rpartition sep s with
  | Some (a, b) => [a; b]
  | None => [s]
  end.

(** [a, b = xs]: unpacking a sequence into two names. *)
Definition unpack2 (xs : list string) : result (string * string) :=
  match xs with
  | [a; b] => Ok (a, b)
  | [] => Raise (ValueError "not enough values to unpack (expected 2, got 0)")
  | [_] => Raise (ValueError "not enough values to unpack (expected 2, got 1)")
  | _ => Raise (ValueError "too many values to unpack (expected 2)")
  end.

(** Python's slice [s[a:b]] with integers of either sign: a negative
    index counts from the end, and both ends are clamped to the string. *)
Definition slice_index (n i : Z) : Z :=
  if (i <? 0)%Z then Z.max 0 (i + n) else Z.min i n.

Definition slice (s : string) (a b : Z) : string :=
  let n := Z.of_nat (String.length s) in
  let a' := slice_index n a in
  let b' := slice_index n b in
  take (Z.to_nat (b' - a')) (drop (Z.to_nat a') s).

Fixpoint concat (xs : list string) : string :=
  match xs with
  | [] => ""
  | x :: xs' => x +:+ concat xs'
  end.

End PyStr.

(** ** The platform: configuration, hashing and the operating system *)

Definition LF : string := String "010"%char "".

(** The text older versions wrote in front of the log's lines. *)
Definition legacy_marker : string := "File Operation Logger".
Definition CR : string := String "013"%char "".

(** [str(err)] as it appears in [f"Error: {err}"]. *)
Definition str_exn (e : exn) : string :=
  match e with
  | ValueError msg => msg
  | KeyError key => "'" +:+ key +:+ "'"
  | NameError name => "name '" +:+ name +:+ "' is not defined"
  | FileNotFoundError msg => msg
  | OSError msg => msg
  end.

Class Platform : Type := {
  (** [CFG.file_logger_path] *)
  file_logger_path : string;
  (** [hashlib.md5(data).hexdigest()], on the UTF-8 encoding of a text *)
  md5_hexdigest : string -> string;
  (** the exception, if any, with which
      [os.makedirs(os.path.dirname(f), exist_ok=True)] followed by opening
      [f] for writing or appending and writing to it fails *)
  write_error : string -> option exn;
  (** the exception, if any, with which [os.rename(old, new)] fails for a
      reason other than [old] being absent, whether [old] exists or not:
      [NotADirectoryError] for a path below a regular file, [OSError] for a
      name that is too long, [ValueError] for a null character,
      [PermissionError], [FileNotFoundError] for a missing directory of
      [new], ... *)
  rename_error : string -> string -> option exn
}.

(** The file system: the content of every file, by path. *)
Abbreviation filesystem := (gmap string string).

(** The reconstructed state: the last known checksum of every tracked path.
    A value is [None] when the log line carried no checksum. *)
Abbreviation log_state := (gmap string (option string)).

(** A log entry, as the generator yields it: [(operation, path, checksum)]. *)
Abbreviation entry := (string * string * option string)%type.

(** Reading in text mode translates line ends: [open(f, "r")] has
    [newline=None], so "\r\n" and a lone "\r" are read as "\n".  [after_cr]
    tells that the previous character was a "\r". *)
Fixpoint universal_newlines (after_cr : bool) (s : string) : string :=
  match s with
  | "" => ""
  | String c s' =>
      if Ascii.eqb c "013" then LF +:+ universal_newlines true s'
      else if Ascii.eqb c "010" then
        if after_cr then universal_newlines false s'
        else LF +:+ universal_newlines false s'
      else String c (universal_newlines false s')
  end.

(** [for line in f]: the lines of a text, each with its final "\n" except
    possibly the last. *)
Fixpoint readlines (s : string) : list string :=
  match s with
  | "" => []
  | String c s' =>
      if Ascii.eqb c "010" then LF :: readlines s'
      else match readlines s' with
           | [] => [String c ""]
           | l :: ls => String c l :: ls
           end
  end.

Section FileOperations.
Context {platform : Platform}.

(** [with open(f, "w") as f: f.write(text)], after the [os.makedirs] *)
Definition os_write (fs : filesystem) (filename text : string)
  : result filesystem :=
  match write_error filename with
  | Some e => Raise e
  | None => Ok (<[filename := text]> fs)
  end.

(** [with open(f, "a") as f: f.write(text)], after the [os.makedirs] *)
Definition os_append (fs : filesystem) (filename text : string)
  : result filesystem :=
  match write_error filename with
  | Some e => Raise e
  | None => Ok (<[filename := default "" (fs !! filename) +:+ text]> fs)
  end.

(** [with open(f, "r") as f: f.read()] *)
Definition os_read (fs : filesystem) (filename : string) : result string :=
  match fs !! filename with
  | None => Raise (FileNotFoundError
                     ("[Errno 2] No such file or directory: '" +:+ filename +:+ "'"))
  | Some content => Ok (universal_newlines false content)
  end.

(** [os.rename(old, new)]: what the operating system has against the
    paths comes first; a source that is merely absent raises
    [FileNotFoundError]. *)
Definition os_rename (fs : filesystem) (old new : string)
  : result filesystem :=
  match rename_error old new with
  | Some e => Raise e
  | None =>
      match fs !! old with
      | None => Raise (FileNotFoundError
                         ("[Errno 2] No such file or directory: '" +:+ old
                          +:+ "' -> '" +:+ new +:+ "'"))
      | Some content => Ok (<[new := content]> (delete old fs))
      end
  end.

Definition text_checksum (text : string) : string := md5_hexdigest text.

(** The body of the loop of [operations_from_log] for one line: what it
    yields ([None] when nothing), or the exception it raises. *)
Definition operations_from_line (line : string) : result (option entry) :=
  let line := PyStr.strip (PyStr.remove legacy_marker line) in
  if String.eqb line "" then Ok None
  else
    '(operation, tail) ← PyStr.unpack2 (PyStr.split1 ": " line);
    let operation := PyStr.strip operation in
    if String.eqb operation "write" || String.eqb operation "append" then
      match PyStr.unpack2 (PyStr.strip <$> PyStr.rsplit1 " #" tail) with
      | Ok (path, checksum) => Ok (Some (operation, path, Some checksum))
      | Raise (ValueError _) => Ok (Some (operation, PyStr.strip tail, None))
      | Raise e => Raise e
      end
    else if String.eqb operation "delete" then
      Ok (Some (operation, PyStr.strip tail, None))
    else Ok None.

(** The generator over the lines of the open log: the entries yielded, in
    order, and the exception that ended it, if one did. *)
Fixpoint operations_from_lines (lines : list string)
  : list entry * option exn :=
  match lines with
  | [] => ([], None)
  | line :: rest =>
      match operations_from_line line with
      | Raise e => ([], Some e)
      | Ok None => operations_from_lines rest
      | Ok (Some en) =>
          let '(ens, ending) := operations_from_lines rest in
          (en :: ens, ending)
      end
  end.

Definition operations_from_log (fs : filesystem) (log_path : string)
  : list entry * option exn :=
  match fs !! log_path with
  | None => ([], None)
  | Some content =>
      operations_from_lines (readlines (universal_newlines false content))
  end.

(** The body of the loop of [file_operations_state] for one entry. *)
Definition apply_operation (state : log_state) (en : entry)
  : result log_state :=
  let '(operation, path, checksum) := en in
  if String.eqb operation "write" || String.eqb operation "append" then
    Ok (<[path := checksum]> state)
  else if String.eqb operation "delete" then
    match state !! path with
    | Some _ => Ok (delete path state)
    | None => Raise (KeyError path)
    end
  else Ok state.

Fixpoint fold_operations (state : log_state) (ens : list entry)
  : result log_state :=
  match ens with
  | [] => Ok state
  | en :: rest =>
      state' ← apply_operation state en;
      fold_operations state' rest
  end.

(** The loop consumes the generator: the entries yielded before the
    generator raises are applied first. *)
Definition file_operations_state (fs : filesystem) (log_path : string)
  : result log_state :=
  let '(ens, ending) := operations_from_log fs log_path in
  state ← fold_operations ∅ ens;
  match ending with
  | Some e => Raise e
  | None => Ok state
  end.

(** [state.get(filename)] *)
Definition state_get (state : log_state) (filename : string)
  : option string :=
  match state !! filename with
  | Some checksum => checksum
  | None => None
  end.

Definition is_duplicate_operation (fs : filesystem)
    (operation filename : string) (checksum : option string) : result bool :=
  state ← file_operations_state fs file_logger_path;
  if String.eqb operation "delete"
     && bool_decide (state !! filename = None) then Ok true
  else if String.eqb operation "write"
     && bool_decide (state_get state filename = checksum) then Ok true
  else Ok false.

(** [append_to_file(filename, text, should_log=False)] *)
Definition append_to_file_unlogged (fs : filesystem) (filename text : string)
  : filesystem * string :=
  match os_append fs filename text with
  | Ok fs' => (fs', "Text appended successfully.")
  | Raise err => (fs, "Error: " +:+ str_exn err)
  end.

Definition log_entry (operation filename : string)
    (checksum : option string) : string :=
  let log_entry := operation +:+ ": " +:+ filename in
  match checksum with
  | Some c => log_entry +:+ " #" +:+ c
  | None => log_entry
  end.

(** The string [append_to_file] returns is dropped. *)
Definition log_operation (fs : filesystem) (operation filename : string)
    (checksum : option string) : filesystem :=
  (append_to_file_unlogged fs file_logger_path
     (log_entry operation filename checksum +:+ LF)).1.

Definition append_to_file (fs : filesystem) (filename text : string)
    (should_log : bool) : filesystem * string :=
  if should_log then
    match os_append fs filename text with
    | Raise err => (fs, "Error: " +:+ str_exn err)
    | Ok fs1 =>
        match os_read fs1 filename with
        | Raise err => (fs1, "Error: " +:+ str_exn err)
        | Ok content =>
            let checksum := text_checksum content in
            (log_operation fs1 "append" filename (Some checksum),
             "Text appended successfully.")
        end
    end
  else append_to_file_unlogged fs filename text.

(** The gate is called outside the [try]: what it raises leaves
    [write_to_file]. *)
Definition write_to_file (fs : filesystem) (filename text : string)
  : result (filesystem * string) :=
  let checksum := text_checksum text in
  dup ← is_duplicate_operation fs "write" filename (Some checksum);
  if dup : bool then Ok (fs, "Error: File has already been updated.")
  else
    match os_write fs filename text with
    | Raise err => Ok (fs, "Error: " +:+ str_exn err)
    | Ok fs1 =>
        Ok (log_operation fs1 "write" filename (Some checksum),
            "File written to successfully.")
    end.

End FileOperations.

(** ** [split_file]

    The generator yields a chunk per turn of the loop.  The loop need not
    end (nothing makes [max_length - overlap] positive), so the embedding
    counts turns: [None] when [fuel] turns were not enough to reach the end
    of the generator. *)

Fixpoint split_file_from (fuel : nat) (content : string)
    (max_length overlap start : Z) : option (list string) :=
  let content_length := Z.of_nat (String.length content) in
  if negb (start <? content_length)%Z then Some []
  else
    match fuel with
    | O => None
    | S fuel' =>
        let end_ := (start + max_length)%Z in
        let next := (start + (max_length - overlap))%Z in
        if (end_ + overlap <? content_length)%Z then
          let chunk := PyStr.slice content start (end_ + overlap - 1) in
          cons chunk <$> split_file_from fuel' content max_length overlap next
        else
          let chunk := PyStr.slice content start content_length in
          if (Z.of_nat (String.length chunk) <=? overlap)%Z then Some []
          else
            cons chunk <$> split_file_from fuel' content max_length overlap next
    end.

Definition split_file (fuel : nat) (content : string)
    (max_length overlap : Z) : option (list string) :=
  split_file_from fuel content max_length overlap 0.

(** ** [rename_file] *)

(** The names bound at the top level of the module: its imports, [CFG],
    [Operation] and its functions. *)
Definition module_globals : list string :=
  [ "annotations"; "hashlib"; "os"; "stat"; "Dict"; "Generator"; "Literal";
    "Tuple"; "shutil"; "tarfile"; "zipfile"; "charset_normalizer";
    "requests"; "Back"; "Fore"; "HTTPAdapter"; "Retry"; "command"; "Config";
    "logger"; "Spinner"; "readable_file_size"; "CFG"; "Operation";
    "text_checksum"; "operations_from_log"; "file_operations_state";
    "is_duplicate_operation"; "log_operation"; "split_file"; "read_file";
    "ingest_file"; "write_to_file"; "append_to_file"; "delete_file";
    "list_files"; "download_file"; "create_directory"; "rename_directory";
    "delete_directory"; "copy_file"; "rename_file"; "get_file_info";
    "change_permissions"; "change_owner_group"; "get_file_size";
    "compress_files"; "uncompress_archive" ].

(** Reading a name inside a function: its parameters first, then the
    module's names; a name found in neither (and that is no builtin) raises
    [NameError].  How a module-level object is rendered in an f-string is
    not modelled beyond its name. *)
Definition load_name (locals : list (string * string)) (name : string)
  : result string :=
  match list_find (fun kv => kv.1 = name) locals with
  | Some (_, (_, value)) => Ok value
  | None =>
      if bool_decide (name ∈ module_globals)
      then Ok ("<" +:+ name +:+ ">")
      else Raise (NameError name)
  end.

Section RenameFile.
Context {platform : Platform}.



End RenameFile.

(** A platform on which nothing fails: the log is [file_logger.txt] and
    every digest is the MD5 of the empty text. *)
Definition demo_platform : Platform := {|
  file_logger_path := "file_logger.txt";
  md5_hexdigest := fun _ => "d41d8cd98f00b204e9800998ecf8427e";
  write_error := fun _ => None;
  rename_error := fun _ _ => None
|}.




(** ** Vocabulary of the properties *)

(** A text all of whose lines are complete: it is empty or ends with "\n". *)
Fixpoint complete_lines (s : string) : bool :=
  match s with
  | "" => true
  | String c s' =>
      match s' with
      | "" => Ascii.eqb c "010"
      | String _ _ => complete_lines s'
      end
  end.

(** A text that a field of a log line carries unchanged: it has no line
    end, no white space at either end, and not the legacy marker. *)
Definition single_line (s : string) : bool :=
  PyStr.all_chars (fun c => negb (PyStr.is_newline c)) s.

Definition loggable (s : string) : Prop :=
  single_line s = true /\ PyStr.strip s = s
  /\ PyStr.contains legacy_marker s = false.

(** An entry that the line format can carry: a known operation, loggable
    fields, a checksum without the separator and only on [write] and
    [append], and, where there is no checksum, a non-empty path that does
    not hold the separator itself on [write] and [append]. *)
Definition carried (en : entry) : Prop :=
  let '(operation, path, checksum) := en in
  operation ∈ ["write"; "append"; "delete"] /\ loggable path /\
  match checksum with
  | Some c =>
      operation <> "delete" /\ loggable c /\ PyStr.contains " #" c = false
  | None =>
      path <> "" /\
      (operation <> "delete" -> PyStr.contains " #" path = false)
  end.

(** What a log line holds after the operation and ": ". *)
Definition log_tail (path : string) (checksum : option string) : string :=
  match checksum with
  | Some c => path +:+ " #" +:+ c
  | None => path
  end.

(** The digits of a lower-case hexadecimal digest. *)
Definition is_hex_digit (c : ascii) : bool :=
  let n := N_of_ascii c in
  ((48 <=? n) && (n <=? 57) || (97 <=? n) && (n <=? 102))%N.

Definition hex_string (s : string) : bool := PyStr.all_chars is_hex_digit s.

(** The fold of the state reconstruction in the words of the specification:
    [write] and [append] set the path's checksum, [delete] removes the path,
    and removing a path that is not there changes nothing. *)
Definition spec_apply (state : log_state) (en : entry) : log_state :=
  let '(operation, path, checksum) := en in
  if bool_decide (operation = "write" \/ operation = "append")
  then <[path := checksum]> state
  else if bool_decide (operation = "delete") then delete path state
  else state.

Definition spec_reconstruct (ens : list entry) : log_state :=
  foldl spec_apply ∅ ens.

(** Some [delete] entry names a path that the entries before it leave
    untracked, starting from [state]. *)
Definition deletes_untracked_from (state : log_state) (ens : list entry)
  : Prop :=
  exists before path checksum after,
    ens = before ++ ("delete", path, checksum) :: after /\
    foldl spec_apply state before !! path = None.

Definition deletes_untracked (ens : list entry) : Prop :=
  deletes_untracked_from ∅ ens.

(** The file system after [text] has been appended to the file [filename]. *)
Definition appended (fs : filesystem) (filename text : string) : filesystem :=
  <[filename := default "" (fs !! filename) +:+ text]> fs.

(** The text of the operation log; a missing log has none. *)
Definition log_content {platform : Platform} (fs : filesystem) : string :=
  default "" (fs !! file_logger_path).

(** ** Concrete logs *)

Definition empty_md5 : string := "d41d8cd98f00b204e9800998ecf8427e".

(** The log of the scenario: a write of [a.txt], then its deletion. *)
Definition written_then_deleted : string :=
  "write: a.txt #d41d8cd98f00b204e9800998ecf8427e" +:+ LF +:+
  "delete: a.txt" +:+ LF.

(** A log whose last line has no newline. *)
Definition unfinished_log : string :=
  "write: b.txt #d41d8cd98f00b204e9800998ecf8427e".

(** A log with one line of an operation that does not exist, then a write. *)
Definition unknown_then_write : string :=
  "foo: bar" +:+ LF +:+
  "write: a.txt #d41d8cd98f00b204e9800998ecf8427e" +:+ LF.

(** ** [delete_file], [rename_directory], [get_file_info] *)

(** What the operating system decides for the commands below. *)
Class OsExtra : Type := {
  (** the exception, if any, with which [os.remove(f)] fails for a reason
      other than [f] being absent, whether [f] exists or not
      ([NotADirectoryError], [PermissionError], [IsADirectoryError], ...) *)
  remove_error : string -> option exn;
  (** the exception, if any, with which [os.stat(f)] fails for a reason
      other than [f] being absent, whether [f] exists or not
      ([NotADirectoryError] for a path below a regular file, [OSError] for
      a name that is too long, [ValueError] for a null character,
      [PermissionError], ...) *)
  stat_error : string -> option exn;
  (** the text that the body of [get_file_info] formats from the result of
      [os.stat] and from the modules [mimetypes], [pwd], [grp] and
      [datetime] *)
  file_info : string -> string
}.

Section MoreCommands.
Context {platform : Platform} {os_extra : OsExtra}.

(** [os.remove(filename)] *)
Definition os_remove (fs : filesystem) (filename : string)
  : result filesystem :=
  match remove_error filename with
  | Some e => Raise e
  | None =>
      match fs !! filename with
      | None => Raise (FileNotFoundError
                         ("[Errno 2] No such file or directory: '"
                          +:+ filename +:+ "'"))
      | Some _ => Ok (delete filename fs)
      end
  end.


(** As in [write_to_file], the gate is called outside the [try]. *)
Definition delete_file (fs : filesystem) (filename : string)
  : result (filesystem * string) :=
  dup ← is_duplicate_operation fs "delete" filename None;
  if dup : bool then Ok (fs, "Error: File has already been deleted.")
  else
    match os_remove fs filename with
    | Raise err => Ok (fs, "Error: " +:+ str_exn err)
    | Ok fs1 =>
        Ok (log_operation fs1 "delete" filename None,
            "File deleted successfully.")
    end.

(** The [try] block of [rename_directory]: the arguments of [os.rename] are
    read before the call. *)
Definition rename_directory_try (fs : filesystem) (old_path new_path : string)
  : filesystem * result string :=
  let locals := [("old_path", old_path); ("new_path", new_path)] in
  match
    old_name ← load_name locals "old_name";
    new_name ← load_name locals "new_name";
    Ok (old_name, new_name)
  with
  | Raise e => (fs, Raise e)
  | Ok (old_name, new_name) =>
      match os_rename fs old_name new_name with
      | Raise e => (fs, Raise e)
      | Ok fs1 =>
          (fs1,
           old_name ← load_name locals "old_name";
           new_name ← load_name locals "new_name";
           Ok ("Directory renamed from '" +:+ old_name +:+ "' to '"
               +:+ new_name +:+ "'."))
      end
  end.

(** The handlers read names as well: what they raise leaves the function. *)
Definition rename_directory (fs : filesystem) (old_path new_path : string)
  : filesystem * result string :=
  let locals := [("old_path", old_path); ("new_path", new_path)] in
  let '(fs', r) := rename_directory_try fs old_path new_path in
  match r with
  | Ok message => (fs', Ok message)
  | Raise (FileNotFoundError _) =>
      (fs',
       old_name ← load_name locals "old_name";
       Ok ("Directory '" +:+ old_name +:+ "' not found."))
  | Raise e =>
      (fs',
       old_name ← load_name locals "old_name";
       new_name ← load_name locals "new_name";
       Ok ("Error renaming directory '" +:+ old_name +:+ "' to '" +:+ new_name
           +:+ "': " +:+ str_exn e))
  end.


End MoreCommands.

Definition demo_os_extra : OsExtra := {|
  remove_error := fun _ => None;
  stat_error := fun _ => None;
  file_info := fun file_path => "File info for '" +:+ file_path +:+ "':"
|}.

(** An entry as the reader can yield it. *)
Definition read_entry (en : entry) : Prop :=
  let '(operation, path, checksum) := en in
  operation ∈ ["write"; "append"; "delete"] /\ PyStr.strip path = path /\
  match checksum with
  | Some c => operation <> "delete" /\ PyStr.strip c = c
  | None => True
  end.

(** * Facts about the [str] methods *)

Module PyStrFacts.
Import PyStr.

Lemma app_cons c (a b : string) : String c a +:+ b = String c (a +:+ b).
Proof. reflexivity. Qed.

Lemma app_nil_l (a : string) : "" +:+ a = a.
Proof. reflexivity. Qed.

Lemma app_nil_r (a : string) : a +:+ "" = a.
Proof. induction a as [|c a IH]; [done|]. by rewrite app_cons, IH. Qed.

Lemma app_assoc (a b c : string) : (a +:+ b) +:+ c = a +:+ (b +:+ c).
Proof. induction a as [|x a IH]; [done|]. by rewrite !app_cons, IH. Qed.

Lemma length_app (a b : string) :
  String.length (a +:+ b) = String.length a + String.length b.
Proof. induction a as [|x a IH]; [done|]. rewrite app_cons. simpl. by rewrite IH. Qed.

Lemma app_eq_nil (a b : string) : a +:+ b = "" -> a = "" /\ b = "".
Proof. destruct a; [done|]. by rewrite app_cons. Qed.

(** ** [startswith], [drop], [take] *)

Lemma startswith_app (p s : string) : startswith p (p +:+ s) = true.
Proof.
  induction p as [|c p IH]; [by destruct s|].
  rewrite app_cons. simpl. by rewrite Ascii.eqb_refl, IH.
Qed.

Lemma drop_app (p s : string) : drop (String.length p) (p +:+ s) = s.
Proof. induction p as [|c p IH]; [by destruct s|]. by rewrite app_cons. Qed.

Lemma take_app (p s : string) : take (String.length p) (p +:+ s) = p.
Proof.
  induction p as [|c p IH]; [by destruct s|].
  rewrite app_cons. simpl. by rewrite IH.
Qed.

Lemma take_all (s : string) : take (String.length s) s = s.
Proof. induction s as [|c s IH]; [done|]. simpl. by rewrite IH. Qed.

(** A character that [m] does not hold cuts every occurrence of [m]. *)
Lemma startswith_cut c (m x b : string) :
  lacks c m = true ->
  startswith m (x +:+ String c b) = startswith m x.
Proof.
  revert x. induction m as [|a m IH]; intros x Hm; [by destruct x|].
  simpl in Hm. apply andb_prop in Hm as [Ha Hm].
  destruct x as [|y x].
  - rewrite app_nil_l. simpl. by destruct (Ascii.eqb a c).
  - rewrite app_cons. simpl. by rewrite IH.
Qed.

Lemma startswith_snoc c (m x : string) :
  m <> "" -> last_char m <> Some c ->
  startswith m (x +:+ String c "") = startswith m x.
Proof.
  revert x. induction m as [|a m IH]; intros x Hne Hlast; [done|].
  destruct x as [|y x].
  - rewrite app_nil_l. simpl. destruct m as [|a' m].
    + destruct (Ascii.eqb_spec a c) as [->|]; [|done]. by destruct Hlast.
    + by rewrite andb_false_r.
  - rewrite app_cons. simpl. destruct m as [|a' m].
    + by destruct (x +:+ String c ""), x.
    + rewrite IH; done.
Qed.

(** ** [contains] *)

Lemma contains_nil (m : string) : m <> "" -> contains m "" = false.
Proof. by destruct m. Qed.

Lemma contains_cons (m : string) c s :
  contains m (String c s) = startswith m (String c s) || contains m s.
Proof. reflexivity. Qed.

Lemma contains_cut c (m a b : string) :
  m <> "" -> lacks c m = true ->
  contains m (a +:+ String c b) = contains m a || contains m b.
Proof.
  intros Hne Hm. induction a as [|x a IH].
  - rewrite app_nil_l, contains_cons, (contains_nil m Hne).
    destruct m as [|y m]; [done|]. simpl in Hm |- *.
    apply andb_prop in Hm as [Hy _]. by destruct (Ascii.eqb y c).
  - rewrite app_cons, !contains_cons, IH.
    rewrite <- (app_cons x a), (startswith_cut c m (String x a) b Hm).
    by rewrite orb_assoc.
Qed.

Lemma contains_snoc c (m s : string) :
  m <> "" -> last_char m <> Some c ->
  contains m (s +:+ String c "") = contains m s.
Proof.
  intros Hne Hlast. induction s as [|x s IH].
  - rewrite app_nil_l, contains_cons, (contains_nil m Hne), orb_false_r.
    rewrite <- (app_nil_l (String c "")), startswith_snoc by done.
    by destruct m.
  - rewrite app_cons, !contains_cons, IH.
    by rewrite <- (app_cons x s), startswith_snoc.
Qed.

Lemma contains_cons_other a (m : string) c s :
  Ascii.eqb a c = false ->
  contains (String a m) (String c s) = contains (String a m) s.
Proof. intros Hac. rewrite contains_cons. simpl. by rewrite Hac. Qed.

(** A text without the first character of [m] does not hold [m]. *)
Lemma contains_lacks_first a (m s : string) :
  lacks a s = true -> contains (String a m) s = false.
Proof.
  induction s as [|c s IH]; intros Hs; [done|].
  simpl in Hs. apply andb_prop in Hs as [Hc Hs].
  rewrite contains_cons_other; [by apply IH|].
  rewrite Ascii.eqb_sym. by destruct (Ascii.eqb c a).
Qed.

Lemma contains_false_startswith (m s : string) :
  contains m s = false -> startswith m s = false.
Proof. destruct s; simpl; intros Hc; by apply orb_false_elim in Hc as [? _]. Qed.

(** ** [replace(old, "")] *)

Lemma remove_absent (old s : string) :
  contains old s = false -> remove old s = s.
Proof.
  unfold remove. induction s as [|c s IH]; intros Hc; [done|].
  rewrite contains_cons in Hc. apply orb_false_elim in Hc as [Hp Hc].
  simpl remove_from. rewrite Hp. by rewrite IH.
Qed.

(** ** [strip] *)

Lemma rstrip_cons_keep c (s : string) :
  rstrip s <> "" -> rstrip (String c s) = String c (rstrip s).
Proof. simpl. by destruct (rstrip s). Qed.

Lemma rstrip_cons_nonspace c (s : string) :
  is_space c = false -> rstrip (String c s) = String c (rstrip s).
Proof. intros Hc. simpl. rewrite Hc. by destruct (rstrip s). Qed.

Lemma rstrip_app (a b : string) :
  rstrip b <> "" -> rstrip (a +:+ b) = a +:+ rstrip b.
Proof.
  intros Hb. induction a as [|c a IH]; [done|].
  rewrite !app_cons, rstrip_cons_keep, IH; [done|].
  rewrite IH. destruct a; [done|]. by rewrite app_cons.
Qed.

Lemma rstrip_snoc_space c (s : string) :
  is_space c = true -> rstrip (s +:+ String c "") = rstrip s.
Proof.
  intros Hc. induction s as [|x s IH].
  - rewrite app_nil_l. simpl. by rewrite Hc.
  - rewrite app_cons. simpl. by rewrite IH.
Qed.

Lemma length_lstrip (s : string) :
  lstrip s = s \/ String.length (lstrip s) < String.length s.
Proof.
  induction s as [|c s IH]; [by left|].
  simpl. destruct (is_space c); [|by left].
  right. destruct IH as [->|]; lia.
Qed.

Lemma length_rstrip (s : string) :
  String.length (rstrip s) <= String.length s.
Proof.
  induction s as [|c s IH]; [done|].
  simpl. destruct (rstrip s); [destruct (is_space c)|]; simpl in *; lia.
Qed.

Lemma strip_fixed (s : string) :
  strip s = s -> lstrip s = s /\ rstrip s = s.
Proof.
  unfold strip. intros Hs.
  assert (lstrip s = s) as Hl.
  { destruct (length_lstrip s) as [|Hlt]; [done|].
    pose proof (length_rstrip (lstrip s)) as Hr.
    rewrite Hs in Hr. lia. }
  split; [done|]. by rewrite Hl in Hs.
Qed.

Lemma strip_intro (s : string) :
  lstrip s = s -> rstrip s = s -> strip s = s.
Proof. unfold strip. by intros -> ->. Qed.

(** ** [partition] and [rpartition] *)

Lemma rpartition_absent (sep s : string) :
  contains sep s = false -> rpartition sep s = None.
Proof.
  induction s as [|c s IH]; intros Hc; [done|].
  rewrite contains_cons in Hc. apply orb_false_elim in Hc as [Hp Hc].
  simpl rpartition. by rewrite (IH Hc), Hp.
Qed.

(** The separator " #" written after [p] is the rightmost one when what
    follows holds none. *)
Lemma rpartition_hash (p c : string) :
  contains " #" c = false ->
  rpartition " #" (p +:+ " #" +:+ c) = Some (p, c).
Proof.
  intros Hc. induction p as [|x p IH].
  - rewrite app_nil_l.
    change (" #" +:+ c) with (String " " (String "#" c)).
    assert (rpartition " #" (String "#" c) = None) as Hin.
    { apply rpartition_absent. by rewrite contains_cons_other. }
    change (rpartition " #" (String " " (String "#" c))) with
      (match rpartition " #" (String "#" c) with
       | Some (a, b) => Some (String " " a, b)
       | None =>
           if startswith " #" (String " " (String "#" c))
           then Some ("", drop (String.length " #") (String " " (String "#" c)))
           else None
       end).
    by rewrite Hin.
  - rewrite app_cons. simpl rpartition. by rewrite IH.
Qed.

End PyStrFacts.

(** * Reading the log *)

Module LogFacts.
Import PyStr PyStrFacts.

(** ** Lines of a text *)

Lemma LF_app (s : string) : LF +:+ s = String "010" s.
Proof. reflexivity. Qed.

Lemma universal_newlines_nonempty (s : string) :
  s <> "" -> universal_newlines false s <> "".
Proof.
  destruct s as [|c s]; [done|]. intros _. simpl.
  destruct (Ascii.eqb c "013"); [done|]. by destruct (Ascii.eqb c "010").
Qed.

Lemma readlines_nonempty (s : string) : s <> "" -> readlines s <> [].
Proof.
  destruct s as [|c s]; [done|]. intros _. simpl.
  destruct (Ascii.eqb c "010"); [done|]. by destruct (readlines s).
Qed.

Lemma complete_lines_tail c (s : string) :
  complete_lines (String c s) = true -> complete_lines s = true.
Proof. destruct s; [done|]. by intros. Qed.

Lemma complete_lines_head c (s : string) :
  complete_lines (String c s) = true -> Ascii.eqb c "010" = false ->
  s <> "".
Proof. destruct s; [|done]. simpl. by intros ->. Qed.

Lemma complete_lines_snoc (s : string) : complete_lines (s +:+ LF) = true.
Proof.
  induction s as [|c s IH]; [done|]. rewrite app_cons.
  change (complete_lines (String c (s +:+ LF)))
    with (match s +:+ LF with
          | "" => Ascii.eqb c "010"
          | String _ _ => complete_lines (s +:+ LF)
          end).
  rewrite IH. destruct s; done.
Qed.

(** Appending to a text of complete lines adds lines and changes none. *)
Lemma lines_app (b : bool) (l x : string) :
  complete_lines l = true -> (l = "" -> b = false) ->
  readlines (universal_newlines b (l +:+ x))
  = readlines (universal_newlines b l) ++ readlines (universal_newlines false x).
Proof.
  revert b. induction l as [|c l IH]; intros b Hl Hb.
  - by rewrite app_nil_l, Hb.
  - pose proof (complete_lines_tail _ _ Hl) as Hl'.
    rewrite app_cons. simpl universal_newlines.
    destruct (Ascii.eqb c "013") eqn:Hcr.
    + apply Ascii.eqb_eq in Hcr as ->.
      rewrite !LF_app. simpl readlines.
      rewrite IH; [done..|].
      intros ->. by simpl in Hl.
    + destruct (Ascii.eqb c "010") eqn:Hlf.
      * destruct b.
        -- by apply IH.
        -- rewrite !LF_app. simpl readlines. by rewrite IH.
      * pose proof (complete_lines_head _ _ Hl Hlf) as Hne.
        simpl readlines. rewrite Hlf, IH; [|done..].
        pose proof (readlines_nonempty _ (universal_newlines_nonempty _ Hne)).
        by destruct (readlines (universal_newlines false l)).
Qed.

Lemma universal_newlines_single_line (l : string) :
  single_line l = true ->
  universal_newlines false (l +:+ LF) = l +:+ LF.
Proof.
  induction l as [|c l IH]; [done|].
  unfold single_line. simpl. intros [Hc Hl]%andb_prop.
  rewrite app_cons. simpl.
  destruct (Ascii.eqb_spec c "013") as [->|]; [done|].
  destruct (Ascii.eqb_spec c "010") as [->|]; [done|].
  by rewrite IH.
Qed.

Lemma readlines_single_line (l : string) :
  single_line l = true -> readlines (l +:+ LF) = [l +:+ LF].
Proof.
  induction l as [|c l IH]; [done|].
  unfold single_line. simpl. intros [Hc Hl]%andb_prop.
  rewrite app_cons. simpl.
  destruct (Ascii.eqb_spec c "010") as [->|]; [done|].
  by rewrite IH.
Qed.

Lemma single_line_app (a b : string) :
  single_line a = true -> single_line b = true ->
  single_line (a +:+ b) = true.
Proof.
  unfold single_line. intros Ha Hb. induction a as [|c a IH]; [done|].
  rewrite app_cons. simpl in *. apply andb_prop in Ha as [-> Ha]. by apply IH.
Qed.

(** ** The generator *)

Lemma operations_from_lines_app (xs ys : list string) :
  operations_from_lines (xs ++ ys)
  = match operations_from_lines xs with
    | (ens, None) =>
        let '(ens', ending) := operations_from_lines ys in
        (ens ++ ens', ending)
    | (ens, Some e) => (ens, Some e)
    end.
Proof.
  induction xs as [|x xs IH]; simpl.
  - by destruct (operations_from_lines ys).
  - destruct (operations_from_line x) as [[en|]|e]; [|done..].
    rewrite IH. destruct (operations_from_lines xs) as [ens [e|]]; [done|].
    by destruct (operations_from_lines ys).
Qed.

(** ** One line written by [log_operation], read back *)

Lemma log_entry_tail op p ck :
  log_entry op p ck = op +:+ ": " +:+ log_tail p ck.
Proof. destruct ck; unfold log_entry, log_tail; [|done]. by rewrite !app_assoc. Qed.

Lemma known_operation (op : string) :
  op ∈ ["write"; "append"; "delete"] ->
  op = "write" \/ op = "append" \/ op = "delete".
Proof. rewrite !elem_of_cons, elem_of_nil. tauto. Qed.

Lemma split_operation (op tail : string) :
  op ∈ ["write"; "append"; "delete"] ->
  split1 ": " (op +:+ ": " +:+ tail) = [op; tail].
Proof. intros [->|[->| ->]]%known_operation; reflexivity. Qed.

Lemma tail_marker_free (p c : string) :
  contains legacy_marker p = false -> contains legacy_marker c = false ->
  contains legacy_marker (p +:+ " #" +:+ c) = false.
Proof.
  intros Hp Hc.
  change (p +:+ " #" +:+ c) with (p +:+ (String " " "" +:+ String "#" c)).
  rewrite <- app_assoc, contains_cut, contains_snoc by done.
  by rewrite Hp, Hc.
Qed.

Lemma log_tail_marker_free p ck :
  loggable p -> match ck with Some c => loggable c | None => True end ->
  contains legacy_marker (log_tail p ck) = false.
Proof.
  intros (_ & _ & Hp) Hck. destruct ck as [c|]; [|done].
  destruct Hck as (_ & _ & Hc). by apply tail_marker_free.
Qed.

Lemma line_marker_free (op tail : string) :
  op ∈ ["write"; "append"; "delete"] ->
  contains legacy_marker tail = false ->
  contains legacy_marker ((op +:+ ": " +:+ tail) +:+ LF) = false.
Proof.
  intros Hop Ht. unfold LF. rewrite contains_snoc by done.
  apply known_operation in Hop as [->|[->| ->]];
    rewrite !app_cons, app_nil_l; unfold legacy_marker;
    by rewrite !contains_cons_other by done.
Qed.

Lemma rstrip_log_tail p ck :
  loggable p -> 
  match ck with Some c => loggable c | None => p <> "" end ->
  rstrip (log_tail p ck) = log_tail p ck /\ log_tail p ck <> "".
Proof.
  intros (_ & Hp & _) Hck. destruct ck as [c|]; simpl.
  - destruct Hck as (_ & Hc & _). apply strip_fixed in Hc as [_ Hc].
    assert (rstrip (" #" +:+ c) = " #" +:+ c) as Hr.
    { rewrite !app_cons, app_nil_l.
      rewrite rstrip_cons_keep; rewrite rstrip_cons_nonspace by done; by rewrite Hc. }
    split.
    + rewrite rstrip_app; by rewrite Hr.
    + intros [_ ?]%app_eq_nil. done.
  - by apply strip_fixed in Hp as [_ Hp].
Qed.

Lemma strip_line (op tail : string) :
  op ∈ ["write"; "append"; "delete"] ->
  rstrip tail = tail -> tail <> "" ->
  strip ((op +:+ ": " +:+ tail) +:+ LF) = op +:+ ": " +:+ tail.
Proof.
  intros Hop Ht Hne. unfold strip.
  assert (lstrip ((op +:+ ": " +:+ tail) +:+ LF) = (op +:+ ": " +:+ tail) +:+ LF) as ->.
  { by apply known_operation in Hop as [->|[->| ->]]. }
  unfold LF. rewrite rstrip_snoc_space by done.
  rewrite <- app_assoc, rstrip_app; by rewrite Ht.
Qed.

Lemma line_nonempty (op tail : string) :
  op ∈ ["write"; "append"; "delete"] ->
  String.eqb (op +:+ ": " +:+ tail) "" = false.
Proof. by intros [->|[->| ->]]%known_operation. Qed.

Lemma strip_operation (op : string) :
  op ∈ ["write"; "append"; "delete"] -> strip op = op.
Proof. by intros [->|[->| ->]]%known_operation. Qed.

Lemma operations_from_line_shape (op tail : string) :
  op ∈ ["write"; "append"; "delete"] ->
  contains legacy_marker tail = false ->
  rstrip tail = tail -> tail <> "" ->
  operations_from_line ((op +:+ ": " +:+ tail) +:+ LF)
  = if bool_decide (op = "delete") then Ok (Some (op, strip tail, None))
    else match unpack2 (strip <$> rsplit1 " #" tail) with
         | Ok (path, checksum) => Ok (Some (op, path, Some checksum))
         | Raise (ValueError _) => Ok (Some (op, strip tail, None))
         | Raise e => Raise e
         end.
Proof.
  intros Hop Hm Hr Hne. unfold operations_from_line.
  rewrite remove_absent by by apply line_marker_free.
  rewrite strip_line, line_nonempty, split_operation by done.
  simpl. rewrite strip_operation by done.
  by apply known_operation in Hop as [->|[->| ->]].
Qed.

Lemma operations_from_line_entry (op p : string) (ck : option string) :
  carried (op, p, ck) ->
  operations_from_line (log_entry op p ck +:+ LF) = Ok (Some (op, p, ck)).
Proof.
  intros (Hop & Hp & Hck). rewrite log_entry_tail.
  destruct (rstrip_log_tail p ck Hp) as [Hr Hne].
  { destruct ck as [c|]; [by destruct Hck as (_ & ? & _)|by destruct Hck]. }
  rewrite operations_from_line_shape; [|done|..|done|done].
  2:{ apply log_tail_marker_free; [done|].
      destruct ck as [c|]; [by destruct Hck as (_ & ? & _)|done]. }
  destruct Hp as (_ & Hp & _).
  destruct ck as [c|]; simpl.
  - destruct Hck as (Hnd & (_ & Hc & _) & Hsep).
    rewrite bool_decide_eq_false_2 by done.
    unfold rsplit1. rewrite rpartition_hash by done. simpl. by rewrite Hp, Hc.
  - destruct Hck as [_ Hsep]. case_bool_decide as Hd; [by rewrite Hp|].
    unfold rsplit1. rewrite rpartition_absent by auto. simpl. by rewrite Hp.
Qed.

Lemma single_line_log_entry (op p : string) (ck : option string) :
  carried (op, p, ck) -> single_line (log_entry op p ck) = true.
Proof.
  intros (Hop & (Hp & _) & Hck). rewrite log_entry_tail.
  apply single_line_app; [by apply known_operation in Hop as [->|[->| ->]]|].
  apply (single_line_app ": "); [done|].
  destruct ck as [c|]; [|done]. destruct Hck as (_ & (Hc & _) & _).
  apply single_line_app; [done|]. by apply (single_line_app " #").
Qed.

(** ** The log after one more line *)

(** Reading a log of complete lines to which [log_operation] has added
    the line of a carried entry: the entries of the log, then the entry. *)
Lemma operations_from_lines_logged (l op p : string) (ck : option string) :
  complete_lines l = true -> carried (op, p, ck) ->
  operations_from_lines
    (readlines (universal_newlines false (l +:+ log_entry op p ck +:+ LF)))
  = match operations_from_lines (readlines (universal_newlines false l)) with
    | (ens, None) => (ens ++ [(op, p, ck)], None)
    | (ens, Some e) => (ens, Some e)
    end.
Proof.
  intros Hl Hen.
  rewrite lines_app, operations_from_lines_app by done.
  rewrite universal_newlines_single_line, readlines_single_line
    by by apply single_line_log_entry.
  simpl. by rewrite operations_from_line_entry.
Qed.

End LogFacts.

(** * Reconstructing the state *)

Module StateFacts.

Lemma apply_operation_cases (state : log_state) (en : entry) :
  apply_operation state en = Ok (spec_apply state en) \/
  exists path checksum,
    en = ("delete", path, checksum) /\ state !! path = None /\
    apply_operation state en = Raise (KeyError path).
Proof.
  destruct en as [[op path] ck]. unfold apply_operation, spec_apply.
  destruct (String.eqb_spec op "write") as [->|Hw]; [by left|].
  destruct (String.eqb_spec op "append") as [->|Ha]; [by left|].
  rewrite bool_decide_eq_false_2 by tauto. simpl.
  destruct (String.eqb_spec op "delete") as [->|Hd].
  - rewrite bool_decide_eq_true_2 by done.
    destruct (state !! path) eqn:Hp; [by left|]. right. by exists path, ck.
  - rewrite bool_decide_eq_false_2 by done. by left.
Qed.

Lemma fold_operations_app (state : log_state) (xs ys : list entry) :
  fold_operations state (xs ++ ys)
  = (state' ← fold_operations state xs; fold_operations state' ys).
Proof.
  revert state. induction xs as [|x xs IH]; intros state; [done|].
  simpl. destruct (apply_operation state x); simpl; [apply IH|done].
Qed.

Lemma deletes_untracked_from_cons state en ens :
  deletes_untracked_from (spec_apply state en) ens ->
  deletes_untracked_from state (en :: ens).
Proof.
  intros (before & path & ck & after & -> & Hp).
  by exists (en :: before), path, ck, after.
Qed.

Lemma fold_operations_raises (state : log_state) (ens : list entry) :
  deletes_untracked_from state ens ->
  exists path, fold_operations state ens = Raise (KeyError path).
Proof.
  revert state. induction ens as [|en ens IH]; intros state.
  - intros (before & ? & ? & ? & Heq & _). by destruct before.
  - intros (before & path & ck & after & Heq & Hp).
    destruct (apply_operation_cases state en) as [Hok|(p & c & _ & _ & Hr)].
    2:{ exists p. simpl. by rewrite Hr. }
    simpl. rewrite Hok. simpl. destruct before as [|b before].
    + simplify_eq/=. unfold apply_operation in Hok. simpl in Hok.
      by rewrite Hp in Hok.
    + simplify_eq/=. apply IH. by exists before, path, ck, after.
Qed.

Lemma fold_operations_folds (state : log_state) (ens : list entry) :
  ~ deletes_untracked_from state ens ->
  fold_operations state ens = Ok (foldl spec_apply state ens).
Proof.
  revert state. induction ens as [|en ens IH]; intros state Hno; [done|].
  destruct (apply_operation_cases state en) as [Hok|(p & c & -> & Hp & _)].
  - simpl. rewrite Hok. simpl. apply IH.
    intros Hu. by apply Hno, deletes_untracked_from_cons.
  - destruct Hno. by exists [], p, c, ens.
Qed.

Lemma fold_operations_ok (state state' : log_state) (ens : list entry) :
  fold_operations state ens = Ok state' -> state' = foldl spec_apply state ens.
Proof.
  revert state. induction ens as [|en ens IH]; intros state; simpl.
  - by intros [= ->].
  - destruct (apply_operation_cases state en) as [->|(p & c & _ & _ & ->)];
      [|done]. simpl. apply IH.
Qed.

End StateFacts.

(** * The duplicate gate *)

Module GateFacts.
Import StateFacts.

Section Gate.
Context {platform : Platform}.

(** Once the state is reconstructed, the gate is a test on it. *)
Lemma is_duplicate_operation_state fs op path ck state :
  file_operations_state fs file_logger_path = Ok state ->
  is_duplicate_operation fs op path ck
  = Ok (String.eqb op "delete" && bool_decide (state !! path = None)
        || String.eqb op "write" && bool_decide (state_get state path = ck)).
Proof.
  intros Hs. unfold is_duplicate_operation. rewrite Hs. simpl.
  destruct (_ && _); [done|]. by destruct (_ && _).
Qed.

(** What raises in the reconstruction raises in the gate. *)
Lemma is_duplicate_operation_raises fs op path ck e :
  file_operations_state fs file_logger_path = Raise e ->
  is_duplicate_operation fs op path ck = Raise e.
Proof. intros Hs. unfold is_duplicate_operation. by rewrite Hs. Qed.

Lemma file_operations_state_missing fs log_path :
  fs !! log_path = None ->
  operations_from_log fs log_path = ([], None) /\
  file_operations_state fs log_path = Ok ∅.
Proof.
  intros Hl. unfold file_operations_state, operations_from_log.
  by rewrite Hl.
Qed.

Lemma file_operations_state_inv fs log_path state :
  file_operations_state fs log_path = Ok state ->
  exists ens, operations_from_log fs log_path = (ens, None) /\
              fold_operations ∅ ens = Ok state.
Proof.
  unfold file_operations_state.
  destruct (operations_from_log fs log_path) as [ens ending].
  destruct (fold_operations ∅ ens) as [st|] eqn:Hf; [|done]. simpl.
  destruct ending; [done|]. intros [= ->]. by exists ens.
Qed.

End Gate.
End GateFacts.

(** * The commands and the log writer *)

Module CommandFacts.
Import PyStr PyStrFacts LogFacts StateFacts GateFacts.

(** ** Hexadecimal digests are loggable *)

Lemma all_chars_impl (f g : ascii -> bool) (s : string) :
  (forall c, f c = true -> g c = true) ->
  all_chars f s = true -> all_chars g s = true.
Proof.
  intros Hfg. induction s as [|c s IH]; [done|].
  simpl. intros [Hc Hs]%andb_prop. by rewrite (Hfg c Hc), IH.
Qed.

Lemma lstrip_no_space (s : string) :
  all_chars (fun c => negb (is_space c)) s = true -> lstrip s = s.
Proof. destruct s as [|c s]; [done|]. simpl. by destruct (is_space c). Qed.

Lemma rstrip_no_space (s : string) :
  all_chars (fun c => negb (is_space c)) s = true -> rstrip s = s.
Proof.
  induction s as [|c s IH]; [done|]. simpl. intros [Hc Hs]%andb_prop.
  rewrite IH by done. destruct s; [|done]. by destruct (is_space c).
Qed.

Lemma hex_digit_plain (c : ascii) :
  is_hex_digit c = true ->
  negb (is_space c) = true /\ negb (is_newline c) = true /\
  negb (Ascii.eqb c "F") = true /\ negb (Ascii.eqb c " ") = true.
Proof. destruct c as [[] [] [] [] [] [] [] []]; done. Qed.

Lemma hex_string_loggable (c : string) :
  hex_string c = true -> loggable c /\ contains " #" c = false.
Proof.
  intros Hc.
  assert (forall g : ascii -> bool,
            (forall x, is_hex_digit x = true -> g x = true) ->
            all_chars g c = true) as Hall.
  { intros g Hg. revert Hc. by apply all_chars_impl. }
  repeat split.
  - apply Hall. intros x Hx. by apply hex_digit_plain.
  - apply strip_intro; [apply lstrip_no_space|apply rstrip_no_space];
      apply Hall; intros x Hx; by apply hex_digit_plain.
  - apply contains_lacks_first, Hall. intros x Hx. by apply hex_digit_plain.
  - apply contains_lacks_first, Hall. intros x Hx. by apply hex_digit_plain.
Qed.

(** ** Lines that yield nothing, lines that raise *)

(** A line whose text before the first ": " is no known operation is
    passed over: neither branch of the loop's [if] takes it. *)
Lemma operations_from_line_unknown (line op tail : string) :
  partition ": " (strip (remove legacy_marker line)) = Some (op, tail) ->
  strip op ∉ ["write"; "append"; "delete"] ->
  operations_from_line line = Ok None.
Proof.
  intros Hpart Hop. unfold operations_from_line, split1. rewrite Hpart.
  destruct (String.eqb _ ""); [done|]. simpl.
  destruct (String.eqb_spec (strip op) "write") as [Hw|_];
    [rewrite Hw in Hop; set_solver|].
  destruct (String.eqb_spec (strip op) "append") as [Ha|_];
    [rewrite Ha in Hop; set_solver|].
  destruct (String.eqb_spec (strip op) "delete") as [Hd|_];
    [rewrite Hd in Hop; set_solver|done].
Qed.

(** A line that is not blank and holds no ": " raises [ValueError]. *)
Lemma operations_from_line_no_separator (line : string) :
  strip (remove legacy_marker line) <> "" ->
  partition ": " (strip (remove legacy_marker line)) = None ->
  operations_from_line line
  = Raise (ValueError "not enough values to unpack (expected 2, got 1)").
Proof.
  intros Hne Hpart. unfold operations_from_line, split1. rewrite Hpart.
  by destruct (String.eqb_spec (strip (remove legacy_marker line)) "").
Qed.

(** ** [split_file] ends when the step is positive *)

Lemma split_file_from_total (content : string) (max_length overlap : Z) :
  (0 <= overlap < max_length)%Z ->
  forall (fuel : nat) (start : Z),
    (Z.of_nat (String.length content) - start <= Z.of_nat fuel)%Z ->
    is_Some (split_file_from fuel content max_length overlap start).
Proof.
  intros Hpar. induction fuel as [|fuel IH]; intros start Hfuel.
  - simpl. destruct (Z.ltb_spec start (Z.of_nat (String.length content)));
      simpl; [lia|done].
  - simpl. destruct (Z.ltb_spec start (Z.of_nat (String.length content)));
      simpl; [|done].
    assert (is_Some (split_file_from fuel content max_length overlap
                       (start + (max_length - overlap)))) as [chunks ->].
    { apply IH. lia. }
    destruct (_ <? _)%Z; [done|]. by destruct (_ <=? _)%Z.
Qed.

Section Commands.
Context {platform : Platform}.

Lemma log_operation_appended fs op p ck :
  write_error file_logger_path = None ->
  log_operation fs op p ck
  = appended fs file_logger_path (log_entry op p ck +:+ LF).
Proof.
  intros Hw. unfold log_operation, append_to_file_unlogged, os_append.
  by rewrite Hw.
Qed.

(** A log that cannot be written is left as it is, silently. *)
Lemma log_operation_failed fs op p ck e :
  write_error file_logger_path = Some e ->
  log_operation fs op p ck = fs.
Proof.
  intros Hw. unfold log_operation, append_to_file_unlogged, os_append.
  by rewrite Hw.
Qed.

Lemma operations_from_log_appended fs op p ck :
  complete_lines (log_content fs) = true -> carried (op, p, ck) ->
  operations_from_log
    (appended fs file_logger_path (log_entry op p ck +:+ LF))
    file_logger_path
  = match operations_from_log fs file_logger_path with
    | (ens, None) => (ens ++ [(op, p, ck)], None)
    | (ens, Some e) => (ens, Some e)
    end.
Proof.
  intros Hl Hen. unfold operations_from_log, appended.
  rewrite lookup_insert_eq. unfold log_content in Hl.
  rewrite operations_from_lines_logged by done.
  by destruct (fs !! file_logger_path).
Qed.

Lemma operations_from_log_other fs p text :
  p <> file_logger_path ->
  operations_from_log (<[p := text]> fs) file_logger_path
  = operations_from_log fs file_logger_path.
Proof.
  intros Hp. unfold operations_from_log. by rewrite lookup_insert_ne.
Qed.

Lemma state_after_write fs op p ck state :
  op = "write" \/ op = "append" ->
  complete_lines (log_content fs) = true -> carried (op, p, ck) ->
  file_operations_state fs file_logger_path = Ok state ->
  file_operations_state
    (appended fs file_logger_path (log_entry op p ck +:+ LF))
    file_logger_path
  = Ok (<[p := ck]> state).
Proof.
  intros Hop Hl Hen (ens & Hops & Hf)%file_operations_state_inv.
  unfold file_operations_state.
  rewrite operations_from_log_appended, Hops by done.
  rewrite fold_operations_app, Hf. simpl.
  by destruct Hop as [-> | ->].
Qed.

Lemma append_to_file_logged fs filename text :
  write_error filename = None -> write_error file_logger_path = None ->
  append_to_file fs filename text true
  = (appended (appended fs filename text) file_logger_path
       (log_entry "append" filename
          (Some (text_checksum
                   (universal_newlines false
                      (default "" (fs !! filename) +:+ text)))) +:+ LF),
     "Text appended successfully.").
Proof.
  intros Hf Hl. unfold append_to_file, os_append, os_read. rewrite Hf.
  rewrite lookup_insert_eq. by rewrite log_operation_appended.
Qed.

(** Without [should_log], [append_to_file] is the bare append. *)
Lemma append_to_file_not_logged fs filename text :
  append_to_file fs filename text false
  = append_to_file_unlogged fs filename text.
Proof. reflexivity. Qed.

End Commands.
End CommandFacts.

(** * The properties of the specification *)

Section Claims.
Import PyStr PyStrFacts LogFacts StateFacts GateFacts CommandFacts.
Context {platform : Platform}.

(** C1, amended.  Writing twice is idempotent for a path that the log's
    line format carries unchanged.  Let the digest of [text] be hexadecimal,
    the path [p] be loggable and not the log itself, the log be missing,
    empty or end with a newline, and the log be writable.  If a first
    [write_to_file(p, text)] returns its success message, then it has
    appended the line [write: p #checksum] to the log, the gate reports the
    same write as a duplicate, and a second [write_to_file(p, text)]
    returns "Error: File has already been updated." and leaves every file,
    the log included, as it was. *)
Theorem write_idempotent fs p text fs1 :
  hex_string (text_checksum text) = true ->
  loggable p -> p <> file_logger_path ->
  complete_lines (log_content fs) = true ->
  write_error file_logger_path = None ->
  write_to_file fs p text = Ok (fs1, "File written to successfully.") ->
  log_content fs1
  = log_content fs
    +:+ log_entry "write" p (Some (text_checksum text)) +:+ LF /\
  is_duplicate_operation fs1 "write" p (Some (text_checksum text)) = Ok true /\
  write_to_file fs1 p text = Ok (fs1, "Error: File has already been updated.").
Proof.
  intros Hhex Hp Hne Hl Hw Hfirst.
  unfold write_to_file in Hfirst.
  destruct (is_duplicate_operation fs "write" p (Some (text_checksum text)))
    as [[|]|e] eqn:Hgate; simpl in Hfirst; [done| |done].
  unfold os_write in Hfirst.
  destruct (write_error p) as [e|]; [done|].
  injection Hfirst as <-.
  unfold is_duplicate_operation in Hgate.
  destruct (file_operations_state fs file_logger_path) as [state|] eqn:Hs;
    [|done].
  rewrite log_operation_appended by done.
  assert (log_content (<[p := text]> fs) = log_content fs) as Hlog.
  { unfold log_content. by rewrite lookup_insert_ne. }
  split.
  { unfold appended, log_content. rewrite lookup_insert_eq.
    by rewrite lookup_insert_ne. }
  assert (is_duplicate_operation
            (appended (<[p := text]> fs) file_logger_path
               (log_entry "write" p (Some (text_checksum text)) +:+ LF))
            "write" p (Some (text_checksum text)) = Ok true) as Hdup.
  2:{ split; [done|]. unfold write_to_file. by rewrite Hdup. }
  destruct (hex_string_loggable _ Hhex) as [Hc Hsep].
  erewrite is_duplicate_operation_state; last first.
  { apply state_after_write; [by left| | |].
    - by rewrite Hlog.
    - refine (conj _ (conj Hp (conj _ (conj Hc Hsep)))); [set_solver|done].
    - unfold file_operations_state.
      rewrite operations_from_log_other by done. exact Hs. }
  simpl. unfold state_get. rewrite lookup_insert_eq.
  by rewrite bool_decide_eq_true_2.
Qed.

(** C2, amended.  The gate for a write, once the state is reconstructed:
    it returns true exactly when [state.get(path)], which is [None] for a
    path that is not in the state, equals the checksum supplied; so it
    returns false for every path absent from the state when a checksum is
    supplied. *)
Theorem write_gate_criterion fs path ck state :
  file_operations_state fs file_logger_path = Ok state ->
  is_duplicate_operation fs "write" path ck
  = Ok (bool_decide (state_get state path = ck)) /\
  forall c, state !! path = None ->
    is_duplicate_operation fs "write" path (Some c) = Ok false.
Proof.
  intros Hs. split.
  - by rewrite (is_duplicate_operation_state _ _ _ _ _ Hs).
  - intros c Hp. rewrite (is_duplicate_operation_state _ _ _ _ _ Hs).
    unfold state_get. by rewrite Hp.
Qed.

(** C3.  The gate for a delete, once the state is reconstructed, returns
    true exactly when the path is not in the state.  For the log that
    holds a write of [a.txt] with checksum
    [d41d8cd98f00b204e9800998ecf8427e] and then a delete of [a.txt], the
    state is empty, the delete probe returns true and the write probe with
    that checksum returns false. *)
Theorem delete_gate_criterion :
  (forall fs path ck state,
     file_operations_state fs file_logger_path = Ok state ->
     is_duplicate_operation fs "delete" path ck
     = Ok (bool_decide (state !! path = None))) /\
  let fs : filesystem := {[ file_logger_path := written_then_deleted ]} in
  file_operations_state fs file_logger_path = Ok ∅ /\
  is_duplicate_operation fs "delete" "a.txt" None = Ok true /\
  is_duplicate_operation fs "write" "a.txt" (Some empty_md5) = Ok false.
Proof.
  split.
  - intros fs path ck state Hs.
    rewrite (is_duplicate_operation_state _ _ _ _ _ Hs). simpl.
    by rewrite orb_false_r.
  - intros fs.
    assert (file_operations_state fs file_logger_path = Ok ∅) as Hs.
    { unfold file_operations_state, operations_from_log, fs.
      rewrite lookup_singleton_eq. vm_compute. reflexivity. }
    by rewrite !(is_duplicate_operation_state _ _ _ _ _ Hs).
Qed.

(** C4, amended.  When the log file does not exist, reading it yields no
    entry and no error, the state is empty, and the gate returns false for
    every append probe and for every write probe that supplies a checksum;
    for every delete probe it returns true. *)
Theorem missing_log_gate fs :
  fs !! file_logger_path = None ->
  operations_from_log fs file_logger_path = ([], None) /\
  file_operations_state fs file_logger_path = Ok ∅ /\
  (forall path ck, is_duplicate_operation fs "append" path ck = Ok false) /\
  (forall path c, is_duplicate_operation fs "write" path (Some c) = Ok false) /\
  (forall path ck, is_duplicate_operation fs "delete" path ck = Ok true).
Proof.
  intros Hl. destruct (file_operations_state_missing _ _ Hl) as [Hops Hs].
  repeat split; try done; intros;
    by rewrite (is_duplicate_operation_state _ _ _ _ _ Hs).
Qed.

(** C5, the code at the failing input.  A log whose first line is
    [foo: bar] is read without any error: the line is passed over, the
    write on the next line is yielded, and the state holds it. *)
Theorem unknown_operation_skipped :
  let fs : filesystem := {[ file_logger_path := unknown_then_write ]} in
  operations_from_line "foo: bar" = Ok None /\
  operations_from_log fs file_logger_path
  = ([("write", "a.txt", Some empty_md5)], None) /\
  file_operations_state fs file_logger_path
  = Ok {[ "a.txt" := Some empty_md5 ]}.
Proof.
  intros fs. split; [reflexivity|].
  assert (operations_from_log fs file_logger_path
          = ([("write", "a.txt", Some empty_md5)], None)) as Hops.
  { unfold operations_from_log, fs. rewrite lookup_singleton_eq.
    vm_compute. reflexivity. }
  split; [done|]. unfold file_operations_state. rewrite Hops.
  simpl. by rewrite insert_empty.
Qed.

(** C6.  Let the log at [log_path] yield the entries [ens].  If some
    delete entry names a path that the entries before it leave untracked,
    [file_operations_state] raises [KeyError]; otherwise, when the reading
    itself ended without error, it returns the state obtained by setting
    the path's checksum at each write and append and removing the path at
    each delete, in the order of the file. *)
Theorem delete_of_untracked_raises fs log_path ens ending :
  operations_from_log fs log_path = (ens, ending) ->
  (deletes_untracked ens ->
   exists path, file_operations_state fs log_path = Raise (KeyError path)) /\
  (~ deletes_untracked ens -> ending = None ->
   file_operations_state fs log_path = Ok (spec_reconstruct ens)).
Proof.
  intros Hops. unfold file_operations_state. rewrite Hops. split.
  - intros [path Hr]%fold_operations_raises. exists path. by rewrite Hr.
  - intros Hno ->. by rewrite fold_operations_folds.
Qed.

(** C7.  Appending is never deduplicated.  Where the file and the log can
    be written, two successive calls [append_to_file(filename, text)] both
    return "Text appended successfully.", whatever the log holds: each
    appends [text] to the file, reads the file back and appends to the log
    the line [append: filename #checksum] with the digest of what it read.
    When the file is not the log itself, the file holds its former content
    followed by [text] twice and the log its former content followed by the
    two lines; and when moreover the path is loggable, the two digests are
    hexadecimal and the log was complete and read as the entries [ens]
    without error, the log reads afterwards as [ens] followed by the two
    append entries, each with its digest. *)
Theorem append_never_deduplicated fs filename text :
  write_error filename = None -> write_error file_logger_path = None ->
  let content1 := default "" (fs !! filename) +:+ text in
  let checksum1 := text_checksum (universal_newlines false content1) in
  let line1 := "append: " +:+ filename +:+ " #" +:+ checksum1 +:+ LF in
  let fs_a := <[filename := content1]> fs in
  let fs1 :=
    <[file_logger_path := default "" (fs_a !! file_logger_path) +:+ line1]>
      fs_a in
  let content2 := default "" (fs1 !! filename) +:+ text in
  let checksum2 := text_checksum (universal_newlines false content2) in
  let line2 := "append: " +:+ filename +:+ " #" +:+ checksum2 +:+ LF in
  let fs_b := <[filename := content2]> fs1 in
  let fs2 :=
    <[file_logger_path := default "" (fs_b !! file_logger_path) +:+ line2]>
      fs_b in
  append_to_file fs filename text true
  = (fs1, "Text appended successfully.") /\
  append_to_file fs1 filename text true
  = (fs2, "Text appended successfully.") /\
  (filename <> file_logger_path ->
   content2 = (default "" (fs !! filename) +:+ text) +:+ text /\
   fs2 !! filename = Some content2 /\
   fs2 !! file_logger_path
   = Some ((default "" (fs !! file_logger_path) +:+ line1) +:+ line2) /\
   forall ens,
     loggable filename ->
     hex_string checksum1 = true -> hex_string checksum2 = true ->
     complete_lines (default "" (fs !! file_logger_path)) = true ->
     operations_from_log fs file_logger_path = (ens, None) ->
     operations_from_log fs2 file_logger_path
     = (ens ++ [("append", filename, Some checksum1);
                ("append", filename, Some checksum2)], None)).
Proof.
  intros Hf Hl content1 checksum1 line1 fs_a fs1 content2 checksum2 line2
    fs_b fs2.
  assert (forall c,
            log_entry "append" filename (Some c) +:+ LF
            = "append: " +:+ filename +:+ " #" +:+ c +:+ LF) as Hline.
  { intros c. unfold log_entry. by rewrite !app_assoc. }
  assert (forall fs0,
            append_to_file fs0 filename text true
            = (appended (appended fs0 filename text) file_logger_path
                 ("append: " +:+ filename +:+ " #"
                  +:+ text_checksum
                        (universal_newlines false
                           (default "" (fs0 !! filename) +:+ text))
                  +:+ LF),
               "Text appended successfully.")) as Hcall.
  { intros fs0. rewrite append_to_file_logged by done. by rewrite Hline. }
  split; [exact (Hcall fs)|]. split; [exact (Hcall fs1)|].
  intros Hne.
  assert (fs1 !! filename = Some content1) as H1.
  { unfold fs1, fs_a. rewrite lookup_insert_ne by done.
    by rewrite lookup_insert_eq. }
  assert (content2 = content1 +:+ text) as H2.
  { unfold content2. by rewrite H1. }
  assert (fs1 !! file_logger_path
          = Some (default "" (fs !! file_logger_path) +:+ line1)) as Hl1.
  { unfold fs1, fs_a. rewrite lookup_insert_eq.
    by rewrite lookup_insert_ne. }
  split; [exact H2|]. split.
  { unfold fs2, fs_b. rewrite lookup_insert_ne by done.
    by rewrite lookup_insert_eq. }
  split.
  { unfold fs2, fs_b. rewrite lookup_insert_eq.
    rewrite lookup_insert_ne by done. by rewrite Hl1. }
  intros ens Hp Hc1 Hc2 Hcomplete Hops.
  destruct (hex_string_loggable _ Hc1) as [Hl1c Hs1].
  destruct (hex_string_loggable _ Hc2) as [Hl2c Hs2].
  assert (forall c, loggable c -> contains " #" c = false ->
            carried ("append", filename, Some c)) as Hcarried.
  { intros c Hc Hs. refine (conj _ (conj Hp (conj _ (conj Hc Hs)))).
    - set_solver.
    - done. }
  assert (operations_from_log fs1 file_logger_path
          = (ens ++ [("append", filename, Some checksum1)], None)) as Hops1.
  { change fs1 with (appended fs_a file_logger_path line1).
    unfold line1. rewrite <- Hline.
    rewrite operations_from_log_appended.
    - unfold fs_a. rewrite operations_from_log_other by done.
      by rewrite Hops.
    - unfold log_content, fs_a. by rewrite lookup_insert_ne.
    - by apply Hcarried. }
  change fs2 with (appended fs_b file_logger_path line2).
  unfold line2. rewrite <- Hline.
  rewrite operations_from_log_appended.
  - unfold fs_b. rewrite operations_from_log_other by done.
    rewrite Hops1. by rewrite <- List.app_assoc.
  - unfold log_content, fs_b. rewrite lookup_insert_ne by done.
    rewrite Hl1. unfold line1. rewrite <- !app_assoc.
    apply complete_lines_snoc.
  - by apply Hcarried.
Qed.

(** C8, amended.  The log format round-trips the entries it can carry.
    Let [(op, p, ck)] be carried: [op] is write, append or delete; the
    path and the checksum have no line end, no white space at either end
    and not the legacy marker; a checksum does not hold " #" and comes
    with write or append only; without a checksum the path is not empty
    and, for write and append, does not hold " #".  Let the log be
    writable, be missing, empty or end with a newline, and read as the
    entries [ens] without error.  After [log_operation(op, p, ck)] the log
    reads as [ens] followed by [(op, p, ck)]. *)
Theorem log_round_trip fs op p ck ens :
  carried (op, p, ck) ->
  complete_lines (log_content fs) = true ->
  write_error file_logger_path = None ->
  operations_from_log fs file_logger_path = (ens, None) ->
  operations_from_log (log_operation fs op p ck) file_logger_path
  = (ens ++ [(op, p, ck)], None).
Proof.
  intros Hen Hl Hw Hops.
  by rewrite log_operation_appended, operations_from_log_appended, Hops.
Qed.


End Claims.

(** C9, the code at the failing input.  With [max_length = 2] and
    [overlap = 0] the content [abcdef] is split into [a], [c] and [ef]: the
    characters [b] and [d] are in no chunk, and the chunks do not
    concatenate to the content.  With [max_length = 10] and [overlap = 5]
    the content [abc] yields no chunk at all. *)
Theorem split_file_drops_characters :
  split_file 4 "abcdef" 2 0 = Some ["a"; "c"; "ef"] /\
  PyStr.concat ["a"; "c"; "ef"] <> "abcdef" /\
  split_file 1 "abc" 10 5 = Some [].
Proof. split; [reflexivity|]. split; [done|reflexivity]. Qed.

(** * The properties at concrete inputs

    All on [demo_platform]: the log is [file_logger.txt] and nothing fails. *)

(** C1 fails for a path that ends with a space: the log line is read back
    with the path [a.txt], so the second write of the same empty content to
    ["a.txt "] is not seen as a duplicate; it writes again and appends a
    second line to the log.  It fails as well for [a.txt] when the log does
    not end with a newline: the new line is glued to the last one. *)
Lemma write_idempotence_counterexample :
  (let line := "write: a.txt  #d41d8cd98f00b204e9800998ecf8427e" +:+ LF in
   exists fs1 fs2,
     @write_to_file demo_platform ∅ "a.txt " ""
     = Ok (fs1, "File written to successfully.") /\
     @is_duplicate_operation demo_platform fs1 "write" "a.txt " (Some empty_md5)
     = Ok false /\
     @write_to_file demo_platform fs1 "a.txt " ""
     = Ok (fs2, "File written to successfully.") /\
     @log_content demo_platform fs1 = line /\
     @log_content demo_platform fs2 = line +:+ line) /\
  (let fs : filesystem := {[ "file_logger.txt" := unfinished_log ]} in
   exists fs1 fs2,
     @write_to_file demo_platform fs "a.txt" ""
     = Ok (fs1, "File written to successfully.") /\
     @write_to_file demo_platform fs1 "a.txt" ""
     = Ok (fs2, "File written to successfully.") /\
     fs2 <> fs1).
Proof.
  split.
  - intros line. eexists _, _.
    split; [vm_compute; reflexivity|].
    split; [vm_compute; reflexivity|].
    split; [vm_compute; reflexivity|].
    split; vm_compute; reflexivity.
  - intros fs. eexists _, _.
    split; [vm_compute; reflexivity|].
    split; [vm_compute; reflexivity|].
    intros Heq.
    apply (f_equal (fun m : filesystem => m !! "file_logger.txt")) in Heq.
    vm_compute in Heq. discriminate Heq.
Qed.

Lemma write_idempotent_witness :
  let fs1 : filesystem :=
    <["file_logger.txt" :=
        "write: a.txt #d41d8cd98f00b204e9800998ecf8427e" +:+ LF]>
      {[ "a.txt" := "" ]} in
  @write_to_file demo_platform ∅ "a.txt" ""
  = Ok (fs1, "File written to successfully.") /\
  @write_to_file demo_platform fs1 "a.txt" ""
  = Ok (fs1, "Error: File has already been updated.").
Proof.
  intros fs1.
  assert (@write_to_file demo_platform ∅ "a.txt" ""
          = Ok (fs1, "File written to successfully.")) as Hfirst.
  { vm_compute. reflexivity. }
  split; [exact Hfirst|].
  refine (proj2 (proj2
    (@write_idempotent demo_platform ∅ "a.txt" "" fs1 _ _ _ _ _ Hfirst))).
  - reflexivity.
  - repeat split; vm_compute; reflexivity.
  - discriminate.
  - reflexivity.
  - reflexivity.
Defined.

(** C2 fails for an absent checksum: on an empty file system the state is
    empty, [a.txt] is absent from it, and the write probe without a checksum
    returns true. *)
Lemma write_gate_counterexample :
  file_operations_state ∅ "file_logger.txt" = Ok ∅ /\
  (∅ : log_state) !! "a.txt" = None /\
  @is_duplicate_operation demo_platform ∅ "write" "a.txt" None = Ok true.
Proof. repeat split; vm_compute; reflexivity. Qed.

Lemma write_gate_witness :
  let fs : filesystem :=
    {[ "file_logger.txt" :=
         "write: a.txt #d41d8cd98f00b204e9800998ecf8427e" +:+ LF ]} in
  file_operations_state fs "file_logger.txt"
  = Ok {[ "a.txt" := Some empty_md5 ]} /\
  @is_duplicate_operation demo_platform fs "write" "a.txt" (Some empty_md5)
  = Ok true /\
  @is_duplicate_operation demo_platform fs "write" "b.txt" (Some empty_md5)
  = Ok false.
Proof.
  intros fs.
  assert (file_operations_state fs "file_logger.txt"
          = Ok {[ "a.txt" := Some empty_md5 ]}) as Hs.
  { vm_compute. reflexivity. }
  split; [exact Hs|]. split.
  - exact (proj1 (@write_gate_criterion demo_platform fs "a.txt"
                    (Some empty_md5) _ Hs)).
  - apply (proj2 (@write_gate_criterion demo_platform fs "b.txt" None _ Hs)).
    vm_compute. reflexivity.
Defined.

Lemma delete_gate_witness :
  let fs : filesystem :=
    {[ "file_logger.txt" :=
         "write: a.txt #d41d8cd98f00b204e9800998ecf8427e" +:+ LF ]} in
  file_operations_state fs "file_logger.txt"
  = Ok {[ "a.txt" := Some empty_md5 ]} /\
  @is_duplicate_operation demo_platform fs "delete" "a.txt" None = Ok false /\
  @is_duplicate_operation demo_platform fs "delete" "b.txt" None = Ok true.
Proof.
  intros fs.
  assert (file_operations_state fs "file_logger.txt"
          = Ok {[ "a.txt" := Some empty_md5 ]}) as Hs.
  { vm_compute. reflexivity. }
  split; [exact Hs|]. split.
  - exact (proj1 (@delete_gate_criterion demo_platform) fs "a.txt" None _ Hs).
  - exact (proj1 (@delete_gate_criterion demo_platform) fs "b.txt" None _ Hs).
Defined.

(** C4 fails for delete: with no log file at all, the delete probe of any
    path returns true. *)
Lemma missing_log_counterexample :
  (∅ : filesystem) !! "file_logger.txt" = None /\
  @is_duplicate_operation demo_platform ∅ "delete" "a.txt" None = Ok true.
Proof. split; vm_compute; reflexivity. Qed.

Lemma missing_log_witness :
  (∅ : filesystem) !! "file_logger.txt" = None /\
  file_operations_state ∅ "file_logger.txt" = Ok ∅ /\
  @is_duplicate_operation demo_platform ∅ "append" "a.txt" (Some empty_md5)
  = Ok false /\
  @is_duplicate_operation demo_platform ∅ "write" "a.txt" (Some empty_md5)
  = Ok false.
Proof.
  assert ((∅ : filesystem) !! "file_logger.txt" = None) as Hl by reflexivity.
  destruct (@missing_log_gate demo_platform ∅ Hl) as (_ & Hs & Ha & Hw & _).
  split; [exact Hl|]. split; [exact Hs|]. split; [apply Ha|apply Hw].
Defined.

Lemma delete_of_untracked_witness :
  let fs : filesystem := {[ "file_logger.txt" := "delete: a.txt" +:+ LF ]} in
  operations_from_log fs "file_logger.txt" = ([("delete", "a.txt", None)], None) /\
  exists path, file_operations_state fs "file_logger.txt" = Raise (KeyError path).
Proof.
  intros fs.
  assert (operations_from_log fs "file_logger.txt"
          = ([("delete", "a.txt", None)], None)) as Hops.
  { vm_compute. reflexivity. }
  split; [exact Hops|].
  apply (proj1 (@delete_of_untracked_raises fs "file_logger.txt" _ _ Hops)).
  exists [], "a.txt", None, []. split; reflexivity.
Defined.

Lemma append_never_deduplicated_witness :
  let line := "append: notes.txt #d41d8cd98f00b204e9800998ecf8427e" +:+ LF in
  let fs1 : filesystem :=
    {[ "notes.txt" := "hi"; "file_logger.txt" := line ]} in
  let fs2 : filesystem :=
    {[ "notes.txt" := "hihi"; "file_logger.txt" := line +:+ line ]} in
  @append_to_file demo_platform ∅ "notes.txt" "hi" true
  = (fs1, "Text appended successfully.") /\
  @append_to_file demo_platform fs1 "notes.txt" "hi" true
  = (fs2, "Text appended successfully.") /\
  operations_from_log fs2 "file_logger.txt"
  = ([("append", "notes.txt", Some empty_md5);
      ("append", "notes.txt", Some empty_md5)], None).
Proof.
  destruct (@append_never_deduplicated demo_platform ∅ "notes.txt" "hi"
              eq_refl eq_refl) as (H1 & H2 & H3).
  destruct H3 as (_ & _ & _ & Hread); [discriminate|].
  specialize (Hread [] ltac:(repeat split; reflexivity)
                eq_refl eq_refl eq_refl eq_refl).
  assert (forall (a b : filesystem) (m : string) (x : filesystem * string),
            a = b -> x = (a, m) -> x = (b, m)) as Hto.
  { intros a b m x ->. exact id. }
  assert (forall (a b : filesystem) (r : list entry * option exn),
            a = b -> operations_from_log a "file_logger.txt" = r ->
            operations_from_log b "file_logger.txt" = r) as Hfrom.
  { intros a b r ->. exact id. }
  split; [|split].
  - refine (Hto _ _ _ _ _ H1). apply map_eq. intros k.
    vm_compute. reflexivity.
  - refine (Hto _ _ _ _ _ H2). reflexivity.
  - refine (Hfrom _ _ _ _ Hread). reflexivity.
Defined.

(** C8 fails for a path that ends with a space, which is read back without
    it; for a delete logged with a checksum, which is read back as part of
    the path; for a path that holds the legacy marker, which is removed; for
    a path that holds " #" and has no checksum, which is split; for a
    checksum that holds " #", which is split again; and for an empty path
    without checksum, whose line raises [ValueError]. *)
Lemma log_round_trip_counterexample :
  let read_back op path checksum :=
    operations_from_log
      (@log_operation demo_platform ∅ op path checksum) "file_logger.txt" in
  read_back "write" "a.txt " None = ([("write", "a.txt", None)], None) /\
  read_back "delete" "a.txt" (Some empty_md5)
  = ([("delete", "a.txt #d41d8cd98f00b204e9800998ecf8427e", None)], None) /\
  read_back "write" "File Operation Logger.txt" None
  = ([("write", ".txt", None)], None) /\
  read_back "write" "a #b" None = ([("write", "a", Some "b")], None) /\
  read_back "write" "a.txt" (Some "x #y")
  = ([("write", "a.txt #x", Some "y")], None) /\
  read_back "write" "" None
  = ([], Some (ValueError "not enough values to unpack (expected 2, got 1)")).
Proof. repeat split; vm_compute; reflexivity. Qed.

Lemma log_round_trip_witness :
  operations_from_log
    (@log_operation demo_platform ∅ "write" "a.txt" (Some empty_md5))
    "file_logger.txt"
  = ([("write", "a.txt", Some empty_md5)], None).
Proof.
  apply (@log_round_trip demo_platform ∅ "write" "a.txt" (Some empty_md5) []).
  - split; [set_solver|]. repeat split; vm_compute; reflexivity || discriminate.
  - reflexivity.
  - reflexivity.
  - reflexivity.
Defined.



(** * Further facts: slices, the reader, the state, the log writer *)

Module MoreFacts.
Import PyStr PyStrFacts LogFacts StateFacts GateFacts CommandFacts.

Lemma length_take_le (n : nat) (s : string) : String.length (take n s) <= n.
Proof.
  revert s. induction n as [|n IH]; intros [|c s]; simpl; try lia.
  specialize (IH s). lia.
Qed.

Lemma slice_whole (s : string) :
  slice s 0 (Z.of_nat (String.length s)) = s.
Proof.
  unfold slice, slice_index. simpl.
  destruct (Z.ltb_spec (Z.of_nat (String.length s)) 0); [lia|].
  rewrite Z.min_id, Z.min_l by lia. simpl.
  rewrite Z.sub_0_r, Nat2Z.id. apply take_all.
Qed.

Lemma length_slice_le (s : string) (a b : Z) :
  (0 <= a <= b)%Z -> (a <= Z.of_nat (String.length s))%Z ->
  (Z.of_nat (String.length (slice s a b)) <= b - a)%Z.
Proof.
  intros Hab Ha. unfold slice, slice_index.
  destruct (Z.ltb_spec a 0); [lia|]. destruct (Z.ltb_spec b 0); [lia|].
  pose proof (length_take_le
    (Z.to_nat (Z.min b (Z.of_nat (String.length s))
               - Z.min a (Z.of_nat (String.length s))))
    (drop (Z.to_nat (Z.min a (Z.of_nat (String.length s)))) s)).
  lia.
Qed.

Lemma split_file_from_bounded content max_length overlap :
  (0 <= overlap < max_length)%Z ->
  forall (fuel : nat) (start : Z),
    (0 <= start)%Z ->
    (Z.of_nat (String.length content) - start <= Z.of_nat fuel)%Z ->
    exists chunks,
      split_file_from fuel content max_length overlap start = Some chunks /\
      Forall (fun chunk =>
                (Z.of_nat (String.length chunk) <= max_length + overlap)%Z)
             chunks /\
      (Z.of_nat (length chunks)
       <= Z.max 0 (Z.of_nat (String.length content) - start))%Z.
Proof.
  intros Hpar. induction fuel as [|fuel IH]; intros start Hstart Hfuel.
  - exists []. simpl.
    destruct (Z.ltb_spec start (Z.of_nat (String.length content)));
      simpl; [lia|]. repeat split; [constructor|simpl; lia].
  - simpl. destruct (Z.ltb_spec start (Z.of_nat (String.length content)));
      simpl.
    2:{ exists []. repeat split; [constructor|simpl; lia]. }
    destruct (IH (start + (max_length - overlap))%Z) as (rest & -> & Hall & Hn);
      [lia..|].
    destruct (Z.ltb_spec (start + max_length + overlap)
                (Z.of_nat (String.length content))).
    + eexists. split; [done|]. split.
      * constructor; [|done].
        pose proof (length_slice_le content start
                      (start + max_length + overlap - 1)). lia.
      * simpl length. lia.
    + destruct (Z.leb_spec
                  (Z.of_nat (String.length
                     (slice content start (Z.of_nat (String.length content)))))
                  overlap).
      * exists []. repeat split; [constructor|simpl; lia].
      * eexists. split; [done|]. split.
        -- constructor; [|done].
           pose proof (length_slice_le content start
                         (Z.of_nat (String.length content))). lia.
        -- simpl length. lia.
Qed.

Lemma split_file_from_more_fuel content max_length overlap :
  forall (fuel fuel' : nat) (start : Z) chunks,
    fuel <= fuel' ->
    split_file_from fuel content max_length overlap start = Some chunks ->
    split_file_from fuel' content max_length overlap start = Some chunks.
Proof.
  induction fuel as [|fuel IH]; intros fuel' start chunks Hle.
  - simpl. destruct (start <? _)%Z eqn:Hlt; simpl; [done|].
    intros <-. destruct fuel'; simpl; by rewrite Hlt.
  - destruct fuel' as [|fuel']; [lia|]. simpl.
    destruct (start <? _)%Z; simpl; [|done].
    destruct (split_file_from fuel content max_length overlap
                (start + (max_length - overlap))) as [rest|] eqn:Hrest.
    + rewrite (IH fuel' _ rest) by (done || lia). done.
    + destruct (_ <? _)%Z; [done|]. destruct (_ <=? _)%Z; done.
Qed.

Lemma lstrip_idem (s : string) : lstrip (lstrip s) = lstrip s.
Proof.
  induction s as [|c s IH]; [done|]. simpl.
  destruct (is_space c) eqn:Hc; [done|]. simpl. by rewrite Hc.
Qed.

Lemma rstrip_idem (s : string) : rstrip (rstrip s) = rstrip s.
Proof.
  induction s as [|c s IH]; [done|]. simpl.
  destruct (rstrip s) as [|x r] eqn:Hr.
  - destruct (is_space c) eqn:Hc; [done|]. simpl. by rewrite Hc.
  - rewrite rstrip_cons_keep; by rewrite IH.
Qed.

Lemma lstrip_rstrip (s : string) :
  lstrip s = s -> lstrip (rstrip s) = rstrip s.
Proof.
  destruct s as [|c s]; [done|]. intros Hl.
  assert (is_space c = false) as Hc.
  { destruct (is_space c) eqn:Hc; [|done]. simpl in Hl. rewrite Hc in Hl.
    apply (f_equal String.length) in Hl. simpl in Hl.
    destruct (length_lstrip s) as [Heq|]; [rewrite Heq in Hl|]; lia. }
  rewrite rstrip_cons_nonspace by done. simpl. by rewrite Hc.
Qed.

Lemma strip_idem (s : string) : strip (strip s) = strip s.
Proof.
  unfold strip. rewrite (lstrip_rstrip (lstrip s)) by apply lstrip_idem.
  apply rstrip_idem.
Qed.

Lemma operations_from_line_read_entry (line : string) (en : entry) :
  operations_from_line line = Ok (Some en) -> read_entry en.
Proof.
  unfold operations_from_line, split1, rsplit1.
  destruct (String.eqb _ ""); [done|].
  destruct (partition ": " _) as [[op tail]|]; [|done]. simpl.
  destruct (String.eqb_spec (strip op) "write") as [Hw|_];
    [|destruct (String.eqb_spec (strip op) "append") as [Ha|_]]; simpl.
  - destruct (rpartition " #" tail) as [[a b]|]; simpl; intros [= <-].
    + rewrite Hw. split; [set_solver|]. by rewrite !strip_idem.
    + rewrite Hw. split; [set_solver|]. by rewrite strip_idem.
  - destruct (rpartition " #" tail) as [[a b]|]; simpl; intros [= <-].
    + rewrite Ha. split; [set_solver|]. by rewrite !strip_idem.
    + rewrite Ha. split; [set_solver|]. by rewrite strip_idem.
  - destruct (String.eqb_spec (strip op) "delete") as [Hd|_]; [|done].
    intros [= <-]. rewrite Hd. split; [set_solver|]. by rewrite strip_idem.
Qed.

Lemma operations_from_lines_read_entry (lines : list string) :
  Forall read_entry (operations_from_lines lines).1.
Proof.
  induction lines as [|line lines IH]; simpl; [constructor|].
  destruct (operations_from_line line) as [[en|]|e] eqn:Hline;
    [|done|constructor].
  destruct (operations_from_lines lines) as [ens ending]. simpl in *.
  constructor; [|done]. by eapply operations_from_line_read_entry.
Qed.

Lemma operations_from_log_read_entry fs log_path :
  Forall read_entry (operations_from_log fs log_path).1.
Proof.
  unfold operations_from_log. destruct (fs !! log_path); [|constructor].
  apply operations_from_lines_read_entry.
Qed.

Lemma fold_operations_keys (P : string -> Prop) (ens : list entry) :
  Forall (fun en => P en.1.2) ens ->
  forall state state',
    (forall k, is_Some (state !! k) -> P k) ->
    fold_operations state ens = Ok state' ->
    forall k, is_Some (state' !! k) -> P k.
Proof.
  induction 1 as [|[[op p] ck] ens Hen Hens IH]; intros state state' Hst.
  - by intros [= <-].
  - simpl in Hen.
    change (fold_operations state ((op, p, ck) :: ens))
      with (apply_operation state (op, p, ck)
              ≫= fun st => fold_operations st ens).
    destruct (apply_operation state (op, p, ck)) as [st1|] eqn:Hap;
      simpl; [|done].
    apply IH. intros k Hk. unfold apply_operation in Hap.
    destruct (_ || _).
    + injection Hap as <-. destruct (decide (p = k)) as [<-|Hne]; [done|].
      rewrite lookup_insert_ne in Hk by done. auto.
    + destruct (String.eqb op "delete").
      * destruct (state !! p); [|done]. injection Hap as <-.
        destruct (decide (p = k)) as [<-|Hne].
        -- rewrite lookup_delete_eq in Hk. by destruct Hk.
        -- rewrite lookup_delete_ne in Hk by done. auto.
      * injection Hap as <-. auto.
Qed.

Lemma state_keys_stripped fs log_path state :
  file_operations_state fs log_path = Ok state ->
  forall k, is_Some (state !! k) -> strip k = k.
Proof.
  intros (ens & Hops & Hf)%file_operations_state_inv.
  apply (fold_operations_keys (fun k => strip k = k) ens) with (state := ∅);
    [|by intros k [? ?]|done].
  pose proof (operations_from_log_read_entry fs log_path) as Hall.
  rewrite Hops in Hall. simpl in Hall.
  eapply Forall_impl; [exact Hall|]. intros [[op p] ck]. simpl. tauto.
Qed.

Lemma space_not_marker_start (c : ascii) :
  is_space c = true -> negb (Ascii.eqb c "F") = true.
Proof. destruct c as [[] [] [] [] [] [] [] []]; done. Qed.

Lemma lstrip_all_space (s : string) :
  all_chars is_space s = true -> lstrip s = "".
Proof.
  induction s as [|c s IH]; [done|]. simpl. intros [-> Hs]%andb_prop. auto.
Qed.

Lemma blank_line_skipped (line : string) :
  all_chars is_space line = true -> operations_from_line line = Ok None.
Proof.
  intros Hl. unfold operations_from_line.
  rewrite remove_absent.
  2:{ apply contains_lacks_first. revert Hl. apply all_chars_impl.
      apply space_not_marker_start. }
  unfold strip. by rewrite lstrip_all_space.
Qed.

Lemma marker_in_front (rest : string) :
  operations_from_line (legacy_marker +:+ rest) = operations_from_line rest.
Proof. reflexivity. Qed.

Lemma lstrip_snoc (s : string) c :
  lstrip (s +:+ String c "")
  = match lstrip s with
    | "" => lstrip (String c "")
    | l => l +:+ String c ""
    end.
Proof.
  induction s as [|x s IH]; [done|]. rewrite app_cons. simpl.
  by destruct (is_space x).
Qed.

Lemma strip_snoc_space (s : string) c :
  is_space c = true -> strip (s +:+ String c "") = strip s.
Proof.
  intros Hc. unfold strip. rewrite lstrip_snoc.
  destruct (lstrip s) as [|x l] eqn:Hl.
  - simpl. by rewrite Hc.
  - by rewrite rstrip_snoc_space.
Qed.

Lemma partition_absent (sep s : string) :
  contains sep s = false -> partition sep s = None.
Proof.
  induction s as [|c s IH]; intros Hc; [done|].
  rewrite contains_cons in Hc. apply orb_false_elim in Hc as [Hp Hc].
  simpl partition. by rewrite Hp, (IH Hc).
Qed.

Lemma contains_lstrip (m s : string) :
  contains m s = false -> contains m (lstrip s) = false.
Proof.
  induction s as [|c s IH]; [done|]. intros Hc. simpl lstrip.
  destruct (is_space c); [|done].
  rewrite contains_cons in Hc. apply orb_false_elim in Hc as [_ Hc]. auto.
Qed.

Lemma startswith_rstrip (m s : string) :
  startswith m (rstrip s) = true -> startswith m s = true.
Proof.
  revert m. induction s as [|c s IH]; intros m; [done|].
  destruct m as [|a m]; [done|]. simpl.
  destruct (rstrip s) as [|x r] eqn:Hr.
  - destruct (is_space c); [done|]. simpl.
    intros [-> Hm]%andb_prop. simpl. by apply IH.
  - simpl. intros [-> Hm]%andb_prop. simpl. by apply IH.
Qed.

Lemma contains_rstrip (m s : string) :
  m <> "" -> contains m s = false -> contains m (rstrip s) = false.
Proof.
  intros Hm. induction s as [|c s IH]; [done|]. intros Hc.
  rewrite contains_cons in Hc. apply orb_false_elim in Hc as [Hp Hc].
  specialize (IH Hc).
  destruct (contains m (rstrip (String c s))) eqn:Hr; [|done].
  assert (rstrip (String c s) = "" \/ rstrip (String c s) = String c (rstrip s))
    as [Heq|Heq].
  { simpl. destruct (rstrip s); [destruct (is_space c)|]; auto. }
  - rewrite Heq in Hr. by rewrite contains_nil in Hr.
  - rewrite Heq, contains_cons, IH, orb_false_r in Hr.
    rewrite <- Heq in Hr. apply startswith_rstrip in Hr. congruence.
Qed.

Lemma line_without_separator_raises (line : string) :
  contains legacy_marker line = false -> contains ": " line = false ->
  strip line <> "" ->
  operations_from_line (line +:+ LF)
  = Raise (ValueError "not enough values to unpack (expected 2, got 1)").
Proof.
  intros Hm Hsep Hne.
  assert (strip (remove legacy_marker (line +:+ LF)) = strip line) as Heq.
  { rewrite remove_absent by (unfold LF; by rewrite contains_snoc).
    unfold LF. by apply strip_snoc_space. }
  apply operations_from_line_no_separator; rewrite Heq; [done|].
  apply partition_absent. unfold strip.
  by apply contains_rstrip, contains_lstrip.
Qed.

Section More.
Context {platform : Platform} {os_extra : OsExtra}.

Lemma log_content_insert_other fs p text :
  p <> file_logger_path -> log_content (<[p := text]> fs) = log_content fs.
Proof. intros Hp. unfold log_content. by rewrite lookup_insert_ne. Qed.

Lemma log_content_delete_other fs p :
  p <> file_logger_path -> log_content (delete p fs) = log_content fs.
Proof. intros Hp. unfold log_content. by rewrite lookup_delete_ne. Qed.

Lemma log_content_appended fs text :
  log_content (appended fs file_logger_path text) = log_content fs +:+ text.
Proof. unfold log_content, appended. by rewrite lookup_insert_eq. Qed.

Lemma operations_from_log_delete_other fs p :
  p <> file_logger_path ->
  operations_from_log (delete p fs) file_logger_path
  = operations_from_log fs file_logger_path.
Proof. intros Hp. unfold operations_from_log. by rewrite lookup_delete_ne. Qed.

Lemma file_operations_state_insert_other fs p text :
  p <> file_logger_path ->
  file_operations_state (<[p := text]> fs) file_logger_path
  = file_operations_state fs file_logger_path.
Proof.
  intros Hp. unfold file_operations_state.
  by rewrite operations_from_log_other.
Qed.

Lemma file_operations_state_delete_other fs p :
  p <> file_logger_path ->
  file_operations_state (delete p fs) file_logger_path
  = file_operations_state fs file_logger_path.
Proof.
  intros Hp. unfold file_operations_state.
  by rewrite operations_from_log_delete_other.
Qed.

Lemma log_operation_complete fs op p ck :
  complete_lines (log_content fs) = true ->
  complete_lines (log_content (log_operation fs op p ck)) = true.
Proof.
  intros Hl. destruct (write_error file_logger_path) as [e|] eqn:Hw.
  - by rewrite (log_operation_failed _ _ _ _ e).
  - rewrite log_operation_appended, log_content_appended by done.
    rewrite <- app_assoc. apply complete_lines_snoc.
Qed.

Lemma delete_file_untracked fs p state :
  file_operations_state fs file_logger_path = Ok state ->
  state !! p = None ->
  delete_file fs p = Ok (fs, "Error: File has already been deleted.").
Proof.
  intros Hs Hp. unfold delete_file.
  rewrite (is_duplicate_operation_state _ _ _ _ _ Hs). simpl.
  by rewrite bool_decide_eq_true_2.
Qed.

Lemma state_after_delete fs p state :
  complete_lines (log_content fs) = true ->
  loggable p -> p <> "" -> is_Some (state !! p) ->
  file_operations_state fs file_logger_path = Ok state ->
  file_operations_state
    (appended fs file_logger_path (log_entry "delete" p None +:+ LF))
    file_logger_path
  = Ok (delete p state).
Proof.
  intros Hl Hp Hne [c Hc] (ens & Hops & Hf)%file_operations_state_inv.
  unfold file_operations_state.
  rewrite operations_from_log_appended, Hops; [|done|].
  2:{ split; [set_solver|]. split; [done|]. split; [done|]. by intros []. }
  rewrite fold_operations_app, Hf. simpl. by rewrite Hc.
Qed.

Lemma operations_from_log_appended_text fs text :
  complete_lines (log_content fs) = true ->
  operations_from_log (appended fs file_logger_path text) file_logger_path
  = match operations_from_log fs file_logger_path with
    | (ens, None) =>
        let '(ens', ending) :=
          operations_from_lines (readlines (universal_newlines false text)) in
        (ens ++ ens', ending)
    | (ens, Some e) => (ens, Some e)
    end.
Proof.
  intros Hl. unfold operations_from_log, appended.
  rewrite lookup_insert_eq. unfold log_content in Hl.
  rewrite lines_app, operations_from_lines_app by done.
  destruct (fs !! file_logger_path); [done|]. simpl.
  by destruct (operations_from_lines _).
Qed.

Lemma failure_persists_appended fs text e :
  complete_lines (log_content fs) = true ->
  file_operations_state fs file_logger_path = Raise e ->
  file_operations_state (appended fs file_logger_path text) file_logger_path
  = Raise e.
Proof.
  intros Hl. unfold file_operations_state.
  rewrite operations_from_log_appended_text by done.
  destruct (operations_from_log fs file_logger_path) as [ens [e1|]].
  - done.
  - destruct (operations_from_lines _) as [ens' ending].
    rewrite fold_operations_app.
    destruct (fold_operations ∅ ens); [done|]. done.
Qed.

End More.
End MoreFacts.

(** * Further properties of the code *)

Section Extras.
Import PyStr PyStrFacts LogFacts StateFacts GateFacts CommandFacts MoreFacts.
Context {platform : Platform} {os_extra : OsExtra}.

(** X1.  [delete_file] deletes tracked files only.  When the log reconstructs to
    a state that does not hold the path, [delete_file] returns "Error: File
    has already been deleted." and changes nothing, whether or not the file
    exists on disk. *)
Theorem delete_file_refuses_untracked fs p state :
  file_operations_state fs file_logger_path = Ok state ->
  state !! p = None ->
  delete_file fs p = Ok (fs, "Error: File has already been deleted.").
Proof. apply delete_file_untracked. Qed.

(** X2.  Deleting twice.  Let the path be loggable, not empty and not the log,
    and the log be writable and of complete lines.  If [delete_file] returns
    its success message, the file is gone, the line [delete: path] has been
    appended to the log, a second [delete_file] of the path is refused as
    already deleted and changes nothing, and the gate accepts a write of the
    path with any checksum again. *)
Theorem delete_then_refused fs p fs1 :
  loggable p -> p <> "" -> p <> file_logger_path ->
  complete_lines (log_content fs) = true ->
  write_error file_logger_path = None ->
  delete_file fs p = Ok (fs1, "File deleted successfully.") ->
  fs1 !! p = None /\
  log_content fs1 = log_content fs +:+ log_entry "delete" p None +:+ LF /\
  delete_file fs1 p = Ok (fs1, "Error: File has already been deleted.") /\
  forall c, is_duplicate_operation fs1 "write" p (Some c) = Ok false.
Proof.
  intros Hp Hne Hlog Hl Hw Hdel. unfold delete_file in Hdel.
  destruct (is_duplicate_operation fs "delete" p None) as [[|]|e] eqn:Hgate;
    simpl in Hdel; [done| |done].
  unfold os_remove in Hdel.
  destruct (remove_error p); [done|].
  destruct (fs !! p) as [content|] eqn:Hfile; [|done]. injection Hdel as <-.
  unfold is_duplicate_operation in Hgate.
  destruct (file_operations_state fs file_logger_path) as [state|] eqn:Hs;
    [|done].
  simpl in Hgate. case_bool_decide as Hk; [done|].
  assert (is_Some (state !! p)) as Hsome.
  { by destruct (state !! p). }
  rewrite log_operation_appended by done.
  assert (file_operations_state
            (appended (delete p fs) file_logger_path
               (log_entry "delete" p None +:+ LF)) file_logger_path
          = Ok (delete p state)) as Hs1.
  { apply state_after_delete; try done.
    - by rewrite log_content_delete_other.
    - by rewrite file_operations_state_delete_other. }
  split.
  { unfold appended. rewrite lookup_insert_ne by done.
    apply lookup_delete_eq. }
  split.
  { by rewrite log_content_appended, log_content_delete_other. }
  split.
  - eapply delete_file_untracked; [exact Hs1|]. apply lookup_delete_eq.
  - intros c. rewrite (is_duplicate_operation_state _ _ _ _ _ Hs1).
    unfold state_get. by rewrite lookup_delete_eq.
Qed.

(** X3.  A path with white space at either end is never tracked: whatever the
    log holds, if it reconstructs to a state, the state has no such key, so
    the gate never reports a write of that path as a duplicate and
    [delete_file] always refuses it as already deleted. *)
Theorem unstripped_path_never_tracked fs p state :
  file_operations_state fs file_logger_path = Ok state ->
  strip p <> p ->
  state !! p = None /\
  (forall c, is_duplicate_operation fs "write" p (Some c) = Ok false) /\
  delete_file fs p = Ok (fs, "Error: File has already been deleted.").
Proof.
  intros Hs Hp.
  assert (state !! p = None) as Hnone.
  { destruct (state !! p) eqn:Hk; [|done]. destruct Hp.
    by eapply state_keys_stripped. }
  assert (forall c, is_duplicate_operation fs "write" p (Some c) = Ok false)
    as Hgate.
  { intros c. rewrite (is_duplicate_operation_state _ _ _ _ _ Hs).
    unfold state_get. by rewrite Hnone. }
  split; [done|]. split; [done|]. by eapply delete_file_untracked.
Qed.

(** X4.  The checksum logged by an append serves later writes.  After
    [append_to_file] has appended [text] to a loggable file that is not the
    log, the state maps the path to the checksum of the file as read, and
    [write_to_file] of exactly that content is refused as already updated
    and changes nothing. *)
Theorem append_then_write_is_duplicate fs p text state :
  let content := universal_newlines false (default "" (fs !! p) +:+ text) in
  loggable p -> p <> file_logger_path ->
  complete_lines (log_content fs) = true ->
  write_error p = None -> write_error file_logger_path = None ->
  file_operations_state fs file_logger_path = Ok state ->
  hex_string (text_checksum content) = true ->
  let fs1 := (append_to_file fs p text true).1 in
  file_operations_state fs1 file_logger_path
  = Ok (<[p := Some (text_checksum content)]> state) /\
  write_to_file fs1 p content
  = Ok (fs1, "Error: File has already been updated.").
Proof.
  intros content Hp Hne Hl Hwp Hwl Hs Hhex fs1.
  destruct (hex_string_loggable _ Hhex) as [Hc Hsep].
  assert (file_operations_state fs1 file_logger_path
          = Ok (<[p := Some (text_checksum content)]> state)) as Hs1.
  { unfold fs1. rewrite append_to_file_logged by done. cbn [fst].
    apply state_after_write; [by right| | |].
    - unfold appended. by rewrite log_content_insert_other.
    - refine (conj _ (conj Hp (conj _ (conj Hc Hsep)))); [set_solver|done].
    - unfold appended. by rewrite file_operations_state_insert_other. }
  split; [done|]. unfold write_to_file.
  rewrite (is_duplicate_operation_state _ _ _ _ _ Hs1). simpl.
  unfold state_get. rewrite lookup_insert_eq.
  by rewrite bool_decide_eq_true_2.
Qed.

(** X5.  The commands keep the log made of complete lines.  If the log is
    missing, empty or ends with a newline, it still is after
    [log_operation], and after [write_to_file], [append_to_file] and
    [delete_file] on any path other than the log itself. *)
Theorem log_stays_complete fs :
  complete_lines (log_content fs) = true ->
  (forall op p ck,
     complete_lines (log_content (log_operation fs op p ck)) = true) /\
  (forall p text fs' message,
     p <> file_logger_path ->
     write_to_file fs p text = Ok (fs', message) ->
     complete_lines (log_content fs') = true) /\
  (forall p text,
     p <> file_logger_path ->
     complete_lines (log_content (append_to_file fs p text true).1) = true) /\
  (forall p fs' message,
     p <> file_logger_path ->
     delete_file fs p = Ok (fs', message) ->
     complete_lines (log_content fs') = true).
Proof.
  intros Hl. split; [|split; [|split]].
  - intros op p ck. by apply log_operation_complete.
  - intros p text fs' message Hp. unfold write_to_file.
    destruct (is_duplicate_operation _ _ _ _) as [[|]|]; simpl; [|  |done].
    + by intros [= <- _].
    + unfold os_write. destruct (write_error p).
      * by intros [= <- _].
      * intros [= <- _]. apply log_operation_complete.
        by rewrite log_content_insert_other.
  - intros p text Hp. unfold append_to_file, os_append, os_read.
    destruct (write_error p); [done|]. rewrite lookup_insert_eq. simpl.
    apply log_operation_complete. by rewrite log_content_insert_other.
  - intros p fs' message Hp. unfold delete_file.
    destruct (is_duplicate_operation _ _ _ _) as [[|]|]; simpl; [| |done].
    + by intros [= <- _].
    + unfold os_remove. destruct (remove_error p); [by intros [= <- _]|].
      destruct (fs !! p).
      * intros [= <- _]. apply log_operation_complete.
        by rewrite log_content_delete_other.
      * by intros [= <- _].
Qed.

(** X6.  A log that fails to reconstruct is never repaired by logging.  If the
    reconstruction of a log of complete lines raises [e], then after any
    [log_operation] it raises [e] again, and so do every [write_to_file]
    and every [delete_file]. *)
Theorem failure_persists fs e op p ck :
  complete_lines (log_content fs) = true ->
  file_operations_state fs file_logger_path = Raise e ->
  let fs' := log_operation fs op p ck in
  file_operations_state fs' file_logger_path = Raise e /\
  (forall q text, write_to_file fs' q text = Raise e) /\
  (forall q, delete_file fs' q = Raise e).
Proof.
  intros Hl Hs fs'.
  assert (file_operations_state fs' file_logger_path = Raise e) as Hs'.
  { unfold fs'. destruct (write_error file_logger_path) as [e'|] eqn:Hw.
    - by rewrite (log_operation_failed _ _ _ _ e').
    - rewrite log_operation_appended by done.
      by apply failure_persists_appended. }
  split; [done|]. split.
  - intros q text. unfold write_to_file.
    by rewrite (is_duplicate_operation_raises _ _ _ _ _ Hs').
  - intros q. unfold delete_file.
    by rewrite (is_duplicate_operation_raises _ _ _ _ _ Hs').
Qed.

(** X7.  An exception leaves the gated commands when the log is corrupted.  If
    the first line of the log is not blank, holds no ": " and not the legacy
    marker, then [file_operations_state] raises [ValueError], and so do
    [write_to_file] and [delete_file] for every path, whatever follows in
    the log. *)
Theorem corrupted_log_raises fs line rest :
  fs !! file_logger_path = Some (line +:+ LF +:+ rest) ->
  single_line line = true ->
  contains legacy_marker line = false -> contains ": " line = false ->
  strip line <> "" ->
  let e := ValueError "not enough values to unpack (expected 2, got 1)" in
  file_operations_state fs file_logger_path = Raise e /\
  (forall p text, write_to_file fs p text = Raise e) /\
  (forall p, delete_file fs p = Raise e).
Proof.
  intros Hlog Hline Hm Hsep Hne e.
  assert (file_operations_state fs file_logger_path = Raise e) as Hs.
  { unfold file_operations_state, operations_from_log. rewrite Hlog.
    rewrite <- app_assoc, lines_app; [|apply complete_lines_snoc|].
    2:{ intros [? ?]%app_eq_nil. done. }
    rewrite universal_newlines_single_line, readlines_single_line by done.
    simpl. by rewrite line_without_separator_raises. }
  split; [done|]. split.
  - intros p text. unfold write_to_file.
    by rewrite (is_duplicate_operation_raises _ _ _ _ _ Hs).
  - intros p. unfold delete_file.
    by rewrite (is_duplicate_operation_raises _ _ _ _ _ Hs).
Qed.

(** X8.  Logging never rewrites history: on a log of complete lines that reads
    without error, the entries read after any [log_operation] start with the
    entries read before it. *)
Theorem history_is_kept fs op p ck ens :
  complete_lines (log_content fs) = true ->
  operations_from_log fs file_logger_path = (ens, None) ->
  exists ens',
    (operations_from_log (log_operation fs op p ck) file_logger_path).1
    = ens ++ ens'.
Proof.
  intros Hl Hops. destruct (write_error file_logger_path) as [e|] eqn:Hw.
  - rewrite (log_operation_failed _ _ _ _ e) by done. exists [].
    by rewrite Hops, List.app_nil_r.
  - rewrite log_operation_appended, operations_from_log_appended_text, Hops
      by done.
    destruct (operations_from_lines _) as [ens' ending]. by exists ens'.
Qed.

(** X9.  What the reader yields, whatever the log holds: every entry has the
    operation write, append or delete, a path and a checksum without white
    space at either end, and no checksum when the operation is delete. *)
Theorem reader_yields_read_entries fs log_path :
  Forall read_entry (operations_from_log fs log_path).1.
Proof. apply operations_from_log_read_entry. Qed.

(** X10.  Lines the reader passes over or cleans: a line of white space
    only yields nothing and raises nothing, and the legacy marker in front
    of a line does not change what the line yields. *)
Theorem blank_lines_and_marker :
  (forall line,
     all_chars is_space line = true -> operations_from_line line = Ok None) /\
  (forall rest,
     operations_from_line (legacy_marker +:+ rest) = operations_from_line rest).
Proof. split; [apply blank_line_skipped|apply marker_in_front]. Qed.

(** X11.  The logged commands touch their target and the log only: every other
    file is the same after [write_to_file], [append_to_file] and
    [delete_file], whatever they return. *)
Theorem commands_touch_target_and_log fs p q :
  q <> p -> q <> file_logger_path ->
  (forall text fs' message,
     write_to_file fs p text = Ok (fs', message) -> fs' !! q = fs !! q) /\
  (forall text should_log,
     (append_to_file fs p text should_log).1 !! q = fs !! q) /\
  (forall fs' message,
     delete_file fs p = Ok (fs', message) -> fs' !! q = fs !! q).
Proof.
  intros Hp Hlog.
  assert (forall fs0 op f ck, log_operation fs0 op f ck !! q = fs0 !! q)
    as Hlogop.
  { intros fs0 op f ck. unfold log_operation, append_to_file_unlogged, os_append.
    destruct (write_error file_logger_path); [done|]. simpl.
    by rewrite lookup_insert_ne. }
  split; [|split].
  - intros text fs' message. unfold write_to_file.
    destruct (is_duplicate_operation _ _ _ _) as [[|]|]; simpl; [| |done].
    + by intros [= <- _].
    + unfold os_write. destruct (write_error p).
      * by intros [= <- _].
      * intros [= <- _]. rewrite Hlogop. by rewrite lookup_insert_ne.
  - intros text should_log.
    unfold append_to_file, append_to_file_unlogged, os_append, os_read.
    destruct should_log; destruct (write_error p); simpl; try done.
    + rewrite lookup_insert_eq. simpl. rewrite Hlogop.
      by rewrite lookup_insert_ne.
    + by rewrite lookup_insert_ne.
  - intros fs' message. unfold delete_file.
    destruct (is_duplicate_operation _ _ _ _) as [[|]|]; simpl; [| |done].
    + by intros [= <- _].
    + unfold os_remove. destruct (remove_error p); [by intros [= <- _]|].
      destruct (fs !! p).
      * intros [= <- _]. rewrite Hlogop. by rewrite lookup_delete_ne.
      * by intros [= <- _].
Qed.

(** X12.  [split_file] ends when [0 <= overlap < max_length]: from as many turns
    as the content has characters on, the chunks are the same; there are at
    most as many chunks as characters, and every chunk has at most
    [max_length + overlap] characters. *)
Theorem split_file_ends content max_length overlap :
  (0 <= overlap < max_length)%Z ->
  exists chunks,
    (forall fuel, String.length content <= fuel ->
                  split_file fuel content max_length overlap = Some chunks) /\
    Forall (fun chunk =>
              (Z.of_nat (String.length chunk) <= max_length + overlap)%Z)
           chunks /\
    length chunks <= String.length content.
Proof.
  intros Hpar.
  destruct (split_file_from_bounded content max_length overlap Hpar
              (String.length content) 0) as (chunks & Hrun & Hall & Hn);
    [lia..|].
  exists chunks. split; [|split; [done|lia]].
  intros fuel Hfuel. unfold split_file.
  by apply (split_file_from_more_fuel _ _ _ (String.length content)).
Qed.

(** X13.  A content no longer than the overlap yields no chunk at all, for every
    [max_length >= 0]: the first chunk already takes the break meant for a
    last chunk that was consumed before. *)
Theorem split_file_short_content_lost fuel content max_length overlap :
  (0 <= max_length)%Z ->
  (Z.of_nat (String.length content) <= overlap)%Z ->
  split_file (S fuel) content max_length overlap = Some [].
Proof.
  intros Hmax Hlen. unfold split_file. simpl.
  destruct (Z.ltb_spec 0 (Z.of_nat (String.length content))); simpl; [|done].
  destruct (Z.ltb_spec (0 + max_length + overlap)
              (Z.of_nat (String.length content))); [lia|].
  rewrite slice_whole.
  by destruct (Z.leb_spec (Z.of_nat (String.length content)) overlap); [|lia].
Qed.

(** X14.  A content longer than the overlap and no longer than
    [max_length - overlap] is yielded whole, as the only chunk. *)
Theorem split_file_whole fuel content max_length overlap :
  (0 <= overlap < Z.of_nat (String.length content))%Z ->
  (Z.of_nat (String.length content) <= max_length - overlap)%Z ->
  split_file (S fuel) content max_length overlap = Some [content].
Proof.
  intros Ho Hlen. unfold split_file. simpl.
  destruct (Z.ltb_spec 0 (Z.of_nat (String.length content))); simpl; [|lia].
  destruct (Z.ltb_spec (0 + max_length + overlap)
              (Z.of_nat (String.length content))); [lia|].
  rewrite slice_whole.
  destruct (Z.leb_spec (Z.of_nat (String.length content)) overlap); [lia|].
  assert (split_file_from fuel content max_length overlap
            (0 + (max_length - overlap)) = Some []) as ->; [|done].
  destruct fuel; simpl;
    by destruct (Z.ltb_spec (0 + (max_length - overlap))
                   (Z.of_nat (String.length content))); [lia|].
Qed.

(** X15.  With [overlap = max_length] the generator of [split_file] never ends on
    a content longer than twice that length: no number of turns reaches its
    end. *)
Theorem split_file_never_ends fuel content m :
  (0 <= m)%Z -> (2 * m < Z.of_nat (String.length content))%Z ->
  split_file fuel content m m = None.
Proof.
  intros Hm Hlen. unfold split_file.
  induction fuel as [|fuel IH]; simpl.
  - by destruct (Z.ltb_spec 0 (Z.of_nat (String.length content))); [|lia].
  - destruct (Z.ltb_spec 0 (Z.of_nat (String.length content))); simpl; [|lia].
    destruct (Z.ltb_spec (0 + m + m) (Z.of_nat (String.length content)));
      [|lia].
    replace (0 + (m - m))%Z with 0%Z by lia. by rewrite IH.
Qed.

(** X16.  [rename_directory] renames nothing and returns nothing: for every file
    system and every pair of paths it raises [NameError] for [old_name],
    which its handlers read again, and leaves the file system as it was. *)
Theorem rename_directory_always_raises fs old_path new_path :
  rename_directory fs old_path new_path = (fs, Raise (NameError "old_name")).
Proof. reflexivity. Qed.


End Extras.

(** * The further properties at concrete inputs *)

Lemma delete_file_refuses_untracked_witness :
  let fs : filesystem :=
    <["b.txt" := "kept"]>
      {[ "file_logger.txt" :=
           "write: a.txt #d41d8cd98f00b204e9800998ecf8427e" +:+ LF ]} in
  fs !! "b.txt" = Some "kept" /\
  @delete_file demo_platform demo_os_extra fs "b.txt"
  = Ok (fs, "Error: File has already been deleted.").
Proof.
  intros fs. split; [reflexivity|].
  apply (@delete_file_refuses_untracked demo_platform demo_os_extra fs "b.txt"
           {[ "a.txt" := Some empty_md5 ]}).
  - vm_compute. reflexivity.
  - reflexivity.
Defined.

Lemma delete_then_refused_witness :
  let fs : filesystem :=
    <["a.txt" := ""]>
      {[ "file_logger.txt" :=
           "write: a.txt #d41d8cd98f00b204e9800998ecf8427e" +:+ LF ]} in
  let fs1 : filesystem :=
    {[ "file_logger.txt" :=
         "write: a.txt #d41d8cd98f00b204e9800998ecf8427e" +:+ LF +:+
         "delete: a.txt" +:+ LF ]} in
  @delete_file demo_platform demo_os_extra fs "a.txt"
  = Ok (fs1, "File deleted successfully.") /\
  @delete_file demo_platform demo_os_extra fs1 "a.txt"
  = Ok (fs1, "Error: File has already been deleted.").
Proof.
  intros fs fs1.
  assert (@delete_file demo_platform demo_os_extra fs "a.txt"
          = Ok (fs1, "File deleted successfully.")) as Hdel.
  { vm_compute. reflexivity. }
  split; [exact Hdel|].
  refine (proj1 (proj2 (proj2
    (@delete_then_refused demo_platform demo_os_extra fs "a.txt" fs1
       _ _ _ _ _ Hdel)))).
  - repeat split; vm_compute; reflexivity.
  - discriminate.
  - discriminate.
  - reflexivity.
  - reflexivity.
Defined.

Lemma unstripped_path_never_tracked_witness :
  let fs : filesystem :=
    {[ "file_logger.txt" :=
         "write:  a.txt #d41d8cd98f00b204e9800998ecf8427e" +:+ LF ]} in
  file_operations_state fs "file_logger.txt"
  = Ok {[ "a.txt" := Some empty_md5 ]} /\
  @is_duplicate_operation demo_platform fs "write" " a.txt" (Some empty_md5)
  = Ok false.
Proof.
  intros fs.
  assert (file_operations_state fs "file_logger.txt"
          = Ok {[ "a.txt" := Some empty_md5 ]}) as Hs.
  { vm_compute. reflexivity. }
  split; [exact Hs|].
  apply (@unstripped_path_never_tracked demo_platform demo_os_extra fs " a.txt"
           _ Hs).
  discriminate.
Defined.

Lemma append_then_write_is_duplicate_witness :
  let fs1 := (@append_to_file demo_platform ∅ "a.txt" "" true).1 in
  @write_to_file demo_platform fs1 "a.txt" ""
  = Ok (fs1, "Error: File has already been updated.").
Proof.
  intros fs1.
  refine (proj2
    (@append_then_write_is_duplicate demo_platform ∅ "a.txt" "" ∅
       _ _ _ _ _ _ _)).
  - repeat split; vm_compute; reflexivity.
  - discriminate.
  - reflexivity.
  - reflexivity.
  - reflexivity.
  - reflexivity.
  - reflexivity.
Defined.

Lemma log_stays_complete_witness :
  complete_lines (@log_content demo_platform ∅) = true /\
  complete_lines
    (@log_content demo_platform
       (@log_operation demo_platform ∅ "write" "a.txt " None)) = true.
Proof.
  assert (complete_lines (@log_content demo_platform ∅) = true) as Hl
    by reflexivity.
  split; [exact Hl|].
  apply (proj1 (@log_stays_complete demo_platform demo_os_extra ∅ Hl)).
Defined.

Lemma failure_persists_witness :
  let fs : filesystem := {[ "file_logger.txt" := "delete: a.txt" +:+ LF ]} in
  let fs' := @log_operation demo_platform fs "write" "a.txt" (Some empty_md5) in
  file_operations_state fs "file_logger.txt" = Raise (KeyError "a.txt") /\
  file_operations_state fs' "file_logger.txt" = Raise (KeyError "a.txt") /\
  @write_to_file demo_platform fs' "b.txt" "" = Raise (KeyError "a.txt").
Proof.
  intros fs fs'.
  assert (file_operations_state fs "file_logger.txt" = Raise (KeyError "a.txt"))
    as Hs.
  { vm_compute. reflexivity. }
  destruct (@failure_persists demo_platform demo_os_extra fs (KeyError "a.txt")
              "write" "a.txt" (Some empty_md5) eq_refl Hs) as (H1 & H2 & _).
  split; [exact Hs|]. split; [exact H1|apply H2].
Defined.

Lemma corrupted_log_raises_witness :
  let fs : filesystem :=
    {[ "file_logger.txt" :=
         "garbage" +:+ LF +:+
         "write: a.txt #d41d8cd98f00b204e9800998ecf8427e" +:+ LF ]} in
  @write_to_file demo_platform fs "b.txt" ""
  = Raise (ValueError "not enough values to unpack (expected 2, got 1)").
Proof.
  intros fs.
  refine (proj1 (proj2
    (@corrupted_log_raises demo_platform demo_os_extra fs "garbage"
       ("write: a.txt #d41d8cd98f00b204e9800998ecf8427e" +:+ LF)
       _ _ _ _ _)) "b.txt" "").
  - reflexivity.
  - reflexivity.
  - reflexivity.
  - reflexivity.
  - discriminate.
Defined.

Lemma history_is_kept_witness :
  let fs : filesystem :=
    {[ "file_logger.txt" :=
         "write: a.txt #d41d8cd98f00b204e9800998ecf8427e" +:+ LF ]} in
  operations_from_log fs "file_logger.txt"
  = ([("write", "a.txt", Some empty_md5)], None) /\
  exists ens',
    (operations_from_log
       (@log_operation demo_platform fs "write" "a #b " None)
       "file_logger.txt").1
    = [("write", "a.txt", Some empty_md5)] ++ ens'.
Proof.
  intros fs.
  assert (operations_from_log fs "file_logger.txt"
          = ([("write", "a.txt", Some empty_md5)], None)) as Hops.
  { vm_compute. reflexivity. }
  split; [exact Hops|].
  exact (@history_is_kept demo_platform fs "write" "a #b " None _ eq_refl Hops).
Defined.

Lemma commands_touch_target_and_log_witness :
  let fs : filesystem := {[ "b.txt" := "kept" ]} in
  (@append_to_file demo_platform fs "a.txt" "hi" true).1 !! "b.txt"
  = Some "kept".
Proof.
  intros fs.
  assert ("b.txt" <> "a.txt") as H1 by discriminate.
  assert ("b.txt" <> @file_logger_path demo_platform) as H2 by discriminate.
  exact (proj1 (proj2
    (@commands_touch_target_and_log demo_platform demo_os_extra fs
       "a.txt" "b.txt" H1 H2)) "hi" true).
Defined.

Lemma split_file_ends_witness :
  exists chunks,
    split_file 10 "abcdefghij" 4 1 = Some chunks /\
    length chunks <= 10.
Proof.
  destruct (split_file_ends "abcdefghij" 4 1) as (chunks & Hrun & _ & Hn);
    [lia|].
  exists chunks. split; [apply Hrun; simpl; lia|exact Hn].
Defined.

Lemma split_file_short_content_lost_witness :
  split_file 1 "abc" 4000 200 = Some [].
Proof. apply split_file_short_content_lost; simpl; lia. Defined.

Lemma split_file_whole_witness :
  split_file 1 "abc" 4000 0 = Some ["abc"].
Proof. apply split_file_whole; simpl; lia. Defined.

Lemma split_file_never_ends_witness :
  split_file 1000 "abc" 1 1 = None.
Proof. apply split_file_never_ends; simpl; lia. Defined.
